(** * icl: MIDI event classification and trace formatting (src/event.cpp)

    A shallow embedding of the member functions of [Event] and the
    properties of its classification tables, of the note names and of the
    trace row that [Event::print] hands to the logger. *)

From Stdlib Require Import ZArith List Bool Lia.
From Stdlib Require Import Strings.Ascii Strings.String Numbers.DecimalString.
From Equations Require Import Equations.
Import ListNotations.

Open Scope string_scope.
Open Scope Z_scope.

(** ** Machine integers and library strings *)

(** [uint8_t] and [std::uint32_t] conversions. *)
Definition u8 (z : Z) : Z := z mod 256.
Definition u32 (z : Z) : Z := z mod 2 ^ 32.

(** [size_t] subtraction, as in [content.length() - 34]: the difference
    of two sizes wraps around below zero. *)
Definition size_sub (a b : Z) : Z :=
  if a <? b then a - b + 2 ^ 64 else a - b.

Definition is_byte (z : Z) : Prop := 0 <= z < 256.

(** [s.length()]; the cast [(int)s.length()] is the identity on the strings
    handled here, which are far shorter than 2^31 characters. *)
Definition strlen (s : string) : Z := Z.of_nat (String.length s).

(** [std::to_string] on an [int]: decimal digits, with a leading minus sign
    for negative values. *)
Definition to_string (z : Z) : string := NilZero.string_of_int (Z.to_int z).

(** The first [n] characters of [s], and [s] without them. *)
Fixpoint take (n : nat) (s : string) : string :=
  match n, s with
  | S n', String c s' => String c (take n' s')
  | _, _ => EmptyString
  end.

Fixpoint drop (n : nat) (s : string) : string :=
  match n, s with
  | S n', String _ s' => drop n' s'
  | _, _ => s
  end.

(** [sub] occurs in [s]. *)
Definition contains (sub s : string) : Prop :=
  exists pre post, s = pre ++ sub ++ post.

(** The character [c] occurs in [s]. *)
Fixpoint has_char (c : ascii) (s : string) : bool :=
  match s with
  | EmptyString => false
  | String d s' => Ascii.eqb c d || has_char c s'
  end.

(** A C++ [switch] whose cases all leave the function or [break]: the
    result of the case whose label equals the scrutinee, if there is one.
    The labels of one [switch] are pairwise distinct (the compiler rejects
    duplicates), so scanning in source order picks that case. *)
Fixpoint switch {A : Type} (scrutinee : Z) (cases : list (Z * A)) : option A :=
  match cases with
  | [] => None
  | (label, body) :: rest =>
      if scrutinee =? label then Some body else switch scrutinee rest
  end.

(** ** The declarations of event.h and log.h *)

(** The event-type constants named in event.cpp.  Their values are declared
    in event.h; the development is parametric in them. *)
Class EventTypes : Type := {
  NOTE_OFF : Z;
  NOTE_ON : Z;
  KEY_PRESSURE : Z;
  CONTROL_CHANGE : Z;
  PROGRAM_CHANGE : Z;
  CHANNEL_PRESSURE : Z;
  PITCH_WHEEL_CHANGE : Z;
  SEQUENCE_NUMBER : Z;
  TEXT_EVENT : Z;
  COPYRIGHT : Z;
  SEQUENCE_NAME : Z;
  INSTRUMENT : Z;
  LYRIC : Z;
  MARKER_TEXT : Z;
  CUE_POINT : Z;
  MIDI_CHANNEL_PREFIX : Z;
  END_OF_TRACK : Z;
  TEMPO : Z;
  SMPTE_OFFSET : Z;
  TIME_SIGNATURE : Z;
  KEY_SIGNATURE : Z;
  SEQUENCER_SPECIFIC : Z
}.

(** The hex formatter of namespace [Log].  The second argument is the
    optional flag of the call: [None] when the call leaves it out. *)
Class LogApi : Type := {
  to_hex_string : Z -> option bool -> string
}.

(** Calls that reach the logger. *)
Inductive LogCall : Type :=
| debug (message : string).

(** Modelled from the spec: the fields of [Event], which event.h declares.
    [type], [note] and [velocity] are bytes, [tempo], [totalTime] and
    [delta] integers. *)
Record Event : Type := mkEvent {
  type : Z;
  meta : bool;
  note : Z;
  velocity : Z;
  tempo : Z;
  totalTime : Z;
  delta : Z
}.

(** ** Member functions as state transformers *)

Inductive Exception : Type :=
| out_of_range.

(** What a call of a member function does: it returns a value, leaving the
    object in a new state and a list of logger calls behind; or it throws;
    or it reads outside the raw byte buffer. *)
Inductive Outcome (A : Type) : Type :=
| Returns (value : A) (this : Event) (log : list LogCall)
| Throws (exn : Exception)
| Fault.
Arguments Returns {A} value this log.
Arguments Throws {A} exn.
Arguments Fault {A}.

Definition Method (A : Type) : Type := Event -> Outcome A.

Definition ret {A : Type} (a : A) : Method A := fun this => Returns a this [].

Definition bind {A B : Type} (m : Method A) (k : A -> Method B) : Method B :=
  fun this =>
    match m this with
    | Returns a this' log =>
        match k a this' with
        | Returns b this'' log' => Returns b this'' (log ++ log')%list
        | Throws x => Throws x
        | Fault => Fault
        end
    | Throws x => Throws x
    | Fault => Fault
    end.

Notation "x <- m ;; k" := (bind m (fun x => k))
  (at level 61, m at next level, right associativity).

(** Reading a field of [*this]. *)
Definition field {A : Type} (f : Event -> A) : Method A :=
  fun this => Returns (f this) this [].

(** [type = v]. *)
Definition assign_type (v : Z) : Method unit :=
  fun this =>
    Returns tt (mkEvent v (meta this) (note this) (velocity this)
                        (tempo this) (totalTime this) (delta this)) [].

Definition throw {A : Type} (x : Exception) : Method A := fun _ => Throws x.
Definition fault {A : Type} : Method A := fun _ => Fault.

(** [Log::debug(message)]. *)
Definition Log_debug (message : string) : Method unit :=
  fun this => Returns tt this [debug message].

(** ** Event::getEventName, Event::getEventLength *)

Section Classification.
Context {K : EventTypes}.

Definition name_cases : list (Z * string) :=
  [ (NOTE_OFF, "Note off");
    (NOTE_ON, "Note on");
    (KEY_PRESSURE, "Polyphonic key pressure");
    (CONTROL_CHANGE, "Control change");
    (PROGRAM_CHANGE, "Program change");
    (CHANNEL_PRESSURE, "Channel pressure");
    (PITCH_WHEEL_CHANGE, "Pitch wheel change");
    (SEQUENCE_NUMBER, "Sequence number");
    (TEXT_EVENT, "Text event");
    (COPYRIGHT, "Copyright notice");
    (SEQUENCE_NAME, "Sequence or track name");
    (INSTRUMENT, "Instrument name");
    (LYRIC, "Lyric text");
    (MARKER_TEXT, "Marker text");
    (CUE_POINT, "Cue point");
    (MIDI_CHANNEL_PREFIX, "MIDI channel prefix assignment");
    (END_OF_TRACK, "End of track");
    (TEMPO, "Tempo setting");
    (SMPTE_OFFSET, "SMPTE offset");
    (TIME_SIGNATURE, "Time signature");
    (KEY_SIGNATURE, "Key signature");
    (SEQUENCER_SPECIFIC, "Sequencer specific event") ].

Definition getEventName : Method string :=
  ty <- field type ;;
  if Z.land ty 0xF0 =? 0xF0 then ret "System message"
  else
    match switch ty name_cases with
    | Some name => ret name
    | None => ret "Unknown event type"
    end.

Definition length_cases : list (Z * Z) :=
  [ (KEY_PRESSURE, 2);
    (CONTROL_CHANGE, 2);
    (PROGRAM_CHANGE, 1);
    (CHANNEL_PRESSURE, 1);
    (PITCH_WHEEL_CHANGE, 2);
    (SEQUENCE_NUMBER, 2);
    (MIDI_CHANNEL_PREFIX, 1);
    (END_OF_TRACK, 0);
    (TEMPO, 3);
    (SMPTE_OFFSET, 5);
    (TIME_SIGNATURE, 4);
    (KEY_SIGNATURE, 2) ].

Definition getEventLength : Method Z :=
  ty <- field type ;;
  match switch ty length_cases with
  | Some n => ret n
  | None => ret (-1)
  end.

(** The case labels of a [switch] that compiles are pairwise distinct. *)
Definition labels_distinct : Prop := NoDup (map fst name_cases).

End Classification.

(** ** Event::getNoteName, Event::stripChannel, Event::getChannel *)

Definition note_cases : list (Z * string) :=
  [ (0, "C"); (1, "C#"); (2, "D"); (3, "D#"); (4, "E"); (5, "F");
    (6, "F#"); (7, "G"); (8, "G#"); (9, "A"); (10, "A#"); (11, "B") ].

Definition getNoteName : Method string :=
  n <- field note ;;
  let noteName := "" in
  let noteName :=
    match switch (Z.rem n 12) note_cases with
    | Some pitch => noteName ++ pitch
    | None => noteName
    end in
  let noteName := noteName ++ to_string (Z.quot n 12 - 1) in
  ret noteName.

Definition stripChannel : Method unit :=
  ty <- field type ;;
  assign_type (u8 (Z.land ty 0xF0)).

Definition getChannel : Method Z :=
  ty <- field type ;;
  ret (Z.land ty 0x0F).

(** ** Event::formatColumn *)

Equations? formatColumn (s : string) (width : Z) : string
  by wf (Z.to_nat (width - strlen s)) lt :=
  formatColumn s width with Z_gt_dec (width - strlen s) 0 := {
    | left _ => formatColumn (s ++ " ") width
    | right _ => s }.
Proof.
  assert (E : String.length (s ++ " ") = S (String.length s))
    by (clear; induction s; simpl; congruence).
  unfold strlen in *. rewrite E. lia.
Qed.

(** ** Event::print *)

(** [s.replace(pos, count, str)]: throws [std::out_of_range] when [pos] is
    past the end of [s]; otherwise the characters from [pos] on, [count] of
    them or as many as there are, give way to [str]. *)
Definition string_replace (s : string) (pos count : Z) (str : string)
  : Method string :=
  if pos >? strlen s then throw out_of_range
  else
    let n := Z.min count (strlen s - pos) in
    ret (take (Z.to_nat pos) s ++ str ++ drop (Z.to_nat (pos + n)) s).

(** [file[index]] on the raw byte buffer. *)
Definition read (file : list Z) (index : Z) : Method Z :=
  if index <? 0 then fault
  else
    match nth_error file (Z.to_nat index) with
    | Some b => ret b
    | None => fault
    end.

Section PrintRow.
Context {K : EventTypes} {L : LogApi}.

(** The loop [for(int i = 0; i < len; i++)] with [n] rounds to go. *)
Fixpoint hexdump (n : nat) (i pos : Z) (file : list Z) (content : string)
  : Method string :=
  match n with
  | O => ret content
  | S n' =>
      b <- read file (pos + i) ;;
      let content := content ++ to_hex_string b (Some false) in
      let content := content ++ " " in
      hexdump n' (i + 1) pos file content
  end.

Definition print (pos : Z) (file : list Z) (len : Z) : Method unit :=
  let row := "" in
  let row := row ++ formatColumn (to_hex_string (u32 pos) None) 6 in
  let row := row ++ " | " in
  content <- hexdump (Z.to_nat len) 0 pos file "" ;;
  content <- (if strlen content >? 39
              then string_replace content 27 (size_sub (strlen content) 34)
                                  "[...]"
              else ret content) ;;
  let row := row ++ formatColumn content 39 in
  let row := row ++ "| " in
  total <- field totalTime ;;
  let row := row ++ formatColumn (to_string total) 6 in
  let row := row ++ " | " in
  d <- field delta ;;
  let row := row ++ formatColumn (to_string d) 6 in
  let row := row ++ " | " in
  name <- getEventName ;;
  let row := row ++ formatColumn name 25 in
  let row := row ++ " | " in
  is_meta <- field meta ;;
  row <- (if is_meta : bool
          then ret (row ++ "          ")
          else
            channel <- getChannel ;;
            ret (row ++ formatColumn ("Channel " ++ to_string channel) 10)) ;;
  let row := row ++ " | " in
  ty <- field type ;;
  row <- (if (ty =? NOTE_ON) || (ty =? NOTE_OFF)
          then
            noteName <- getNoteName ;;
            let row := row ++ formatColumn ("Note " ++ noteName) 9 in
            v <- field velocity ;;
            ret (row ++ "at velocity " ++ to_string v)
          else if ty =? TEMPO
          then
            t <- field tempo ;;
            let row := row ++ formatColumn (to_string t) 6 in
            ret (row ++ " us per quarter note")
          else ret row) ;;
  Log_debug row.

End PrintRow.

(** ** Instances *)

(** Modelled from the spec: the constants of event.h at the canonical byte
    values the specification refers to, the status and meta-type bytes of
    the Standard MIDI File format.  The results below hold for every value
    of the constants; this instance shows their assumptions can be met. *)
Definition midi_types : EventTypes := {|
  NOTE_OFF := 0x80;
  NOTE_ON := 0x90;
  KEY_PRESSURE := 0xA0;
  CONTROL_CHANGE := 0xB0;
  PROGRAM_CHANGE := 0xC0;
  CHANNEL_PRESSURE := 0xD0;
  PITCH_WHEEL_CHANGE := 0xE0;
  SEQUENCE_NUMBER := 0x00;
  TEXT_EVENT := 0x01;
  COPYRIGHT := 0x02;
  SEQUENCE_NAME := 0x03;
  INSTRUMENT := 0x04;
  LYRIC := 0x05;
  MARKER_TEXT := 0x06;
  CUE_POINT := 0x07;
  MIDI_CHANNEL_PREFIX := 0x20;
  END_OF_TRACK := 0x2F;
  TEMPO := 0x51;
  SMPTE_OFFSET := 0x54;
  TIME_SIGNATURE := 0x58;
  KEY_SIGNATURE := 0x59;
  SEQUENCER_SPECIFIC := 0x7F
|}.

Definition hex_digit (d : Z) : ascii :=
  match d with
  | 0 => "0" | 1 => "1" | 2 => "2" | 3 => "3" | 4 => "4" | 5 => "5"
  | 6 => "6" | 7 => "7" | 8 => "8" | 9 => "9" | 10 => "a" | 11 => "b"
  | 12 => "c" | 13 => "d" | 14 => "e" | _ => "f"
  end%char.

(** Modelled from the spec: the rendering of a raw byte by
    [Log::to_hex_string(byte, false)], whose definition is not in event.cpp
    or log.h: two hex digits, lower case, no leading 0x. *)
Definition hex_byte (b : Z) : string :=
  String (hex_digit (Z.shiftr b 4)) (String (hex_digit (Z.land b 0xF)) "").

(** Hex digits of [n], most significant first, at least [digits] of them. *)
Fixpoint hex_padded (digits : nat) (n : Z) : string :=
  match digits with
  | O => ""
  | S d => hex_padded d (Z.shiftr n 4) ++ String (hex_digit (Z.land n 0xF)) ""
  end.

(** Modelled from the spec: [Log::to_hex_string], a byte as [hex_byte] when
    the flag is [false], and a zero-padded offset of fixed width otherwise.
    The spec leaves the width open; eight digits hold any [uint32_t]. *)
Definition spec_log : LogApi := {|
  to_hex_string num flag :=
    match flag with
    | Some false => hex_byte num
    | _ => hex_padded 8 num
    end
|}.

(** Modelled from the spec: the contract of [Log::to_hex_string] on a raw
    byte with the flag [false], each byte rendered as two hex digits. *)
Definition renders_bytes (L : LogApi) : Prop :=
  forall b, is_byte b -> to_hex_string b (Some false) = hex_byte b.

(** Modelled from the spec: [Log::to_hex_string] returns a hexadecimal
    representation, so no opening bracket is part of it. *)
Definition no_bracket (L : LogApi) : Prop :=
  forall num flag, has_char "[" (to_hex_string num flag) = false.

(** ** Notions used in the statements *)

(** The value a call returns ([d] when it does not return). *)
Definition value_of {A : Type} (o : Outcome A) (d : A) : A :=
  match o with
  | Returns v _ _ => v
  | _ => d
  end.

(** A call that returns [v], changes no field and logs nothing. *)
Definition yields {A : Type} (m : Method A) (e : Event) (v : A) : Prop :=
  m e = Returns v e [].

(** The pitch-class names of the specification, by [note % 12]. *)
Definition sharps : list string :=
  [ "C"; "C#"; "D"; "D#"; "E"; "F"; "F#"; "G"; "G#"; "A"; "A#"; "B" ].

Fixpoint spaces (n : nat) : string :=
  match n with
  | O => ""
  | S n' => " " ++ spaces n'
  end.

(** The raw bytes [file[pos] .. file[pos + len - 1]]. *)
Definition window (pos : Z) (file : list Z) (len : Z) : list Z :=
  firstn (Z.to_nat len) (skipn (Z.to_nat pos) file).

(** The hex dump in the words of the specification: every byte rendered
    by the formatter and followed by one space. *)
Definition dump {L : LogApi} (bytes : list Z) : string :=
  fold_right (fun b rest => to_hex_string b (Some false) ++ " " ++ rest)
             "" bytes.

(** The truncation rule in the words of the specification. *)
Definition elide (content : string) : string :=
  if strlen content >? 39
  then take 27 content ++ "[...]"
         ++ drop (27 + Z.to_nat (strlen content - 34)) content
  else content.

(** The row in the words of the specification: the columns in order, each
    padded to its width, with the separators of the source between them. *)
Definition row_of {K : EventTypes} {L : LogApi}
           (pos : Z) (bytes : list Z) (e : Event) : string :=
  formatColumn (to_hex_string (u32 pos) None) 6 ++ " | " ++
  formatColumn (elide (dump bytes)) 39 ++ "| " ++
  formatColumn (to_string (totalTime e)) 6 ++ " | " ++
  formatColumn (to_string (delta e)) 6 ++ " | " ++
  formatColumn (value_of (getEventName e) "") 25 ++ " | " ++
  (if meta e then "          "
   else formatColumn ("Channel " ++ to_string (Z.land (type e) 0x0F)) 10)
  ++ " | " ++
  (if (type e =? NOTE_ON) || (type e =? NOTE_OFF)
   then formatColumn ("Note " ++ value_of (getNoteName e) "") 9
          ++ "at velocity " ++ to_string (velocity e)
   else if type e =? TEMPO
   then formatColumn (to_string (tempo e)) 6 ++ " us per quarter note"
   else "").

(** What precedes the hex dump in a row: the offset column and its
    separator. *)
Definition offset_column {L : LogApi} (pos : Z) : string :=
  formatColumn (to_hex_string (u32 pos) None) 6 ++ " | ".

(** [s] without its prefix [p], if [p] is a prefix of [s]. *)
Fixpoint strip_prefix (p s : string) : option string :=
  match p, s with
  | EmptyString, _ => Some s
  | String a p', String b s' =>
      if Ascii.eqb a b then strip_prefix p' s' else None
  | String _ _, EmptyString => None
  end.

(** A search for [sub] in [s]. *)
Fixpoint occurs (sub s : string) : bool :=
  match strip_prefix sub s with
  | Some _ => true
  | None =>
      match s with
      | EmptyString => false
      | String _ s' => occurs sub s'
      end
  end.

(** The window of [len] bytes at [pos] lies inside the buffer. *)
Definition in_buffer (pos : Z) (file : list Z) (len : Z) : Prop :=
  0 <= pos /\ (Z.to_nat pos + Z.to_nat len <= List.length file)%nat.

(** Modelled from the spec: the same formatter with offsets of four digits,
    which fit the 6-wide offset column. *)
Definition short_log : LogApi := {|
  to_hex_string num flag :=
    match flag with
    | Some false => hex_byte num
    | _ => hex_padded 4 num
    end
|}.


(** Every value of a [uint8_t]. *)
Definition all_bytes : list Z := map Z.of_nat (seq 0 256).

(** The reads of [print] stay inside the buffer: there are none, or the
    window lies in it. *)
Definition readable (pos : Z) (file : list Z) (len : Z) : Prop :=
  Z.to_nat len = 0%nat \/ in_buffer pos file len.

(** [s] ends with [suffix]. *)
Definition ends_with (suffix s : string) : Prop :=
  exists pre, s = pre ++ suffix.

(** The three parts of a row: the columns up to the event name, the
    channel column and the trailing field. *)
Definition row_head {K : EventTypes} {L : LogApi}
           (pos : Z) (bytes : list Z) (e : Event) : string :=
  formatColumn (to_hex_string (u32 pos) None) 6 ++ " | " ++
  formatColumn (elide (dump bytes)) 39 ++ "| " ++
  formatColumn (to_string (totalTime e)) 6 ++ " | " ++
  formatColumn (to_string (delta e)) 6 ++ " | " ++
  formatColumn (value_of (getEventName e) "") 25.

Definition channel_column (e : Event) : string :=
  if meta e then "          "
  else formatColumn ("Channel " ++ to_string (Z.land (type e) 0x0F)) 10.

Definition trailing_field {K : EventTypes} (e : Event) : string :=
  if (type e =? NOTE_ON) || (type e =? NOTE_OFF)
  then formatColumn ("Note " ++ value_of (getNoteName e) "") 9
         ++ "at velocity " ++ to_string (velocity e)
  else if type e =? TEMPO
  then formatColumn (to_string (tempo e)) 6 ++ " us per quarter note"
  else "".

(** The name of the note [n], as getNoteName returns it. *)
Definition note_name (n : Z) : string :=
  value_of (getNoteName (mkEvent 0 false n 0 0 0 0)) "".

(** ** Calls, step by step *)

Lemma bind_returns {A B : Type} (m : Method A) (k : A -> Method B)
      (e e' : Event) (a : A) (log : list LogCall) :
  m e = Returns a e' log ->
  bind m k e =
    match k a e' with
    | Returns b e'' log' => Returns b e'' (log ++ log')%list
    | Throws x => Throws x
    | Fault => Fault
    end.
Proof. intros H. unfold bind. rewrite H. reflexivity. Qed.

Lemma bind_yields {A B : Type} (m : Method A) (k : A -> Method B)
      (e : Event) (a : A) :
  yields m e a -> bind m k e = k a e.
Proof.
  intros H. rewrite (bind_returns _ _ _ _ _ _ H). simpl.
  destruct (k a e); reflexivity.
Qed.

Lemma field_yields {A : Type} (f : Event -> A) (e : Event) :
  yields (field f) e (f e).
Proof. reflexivity. Qed.

Lemma ret_yields {A : Type} (a : A) (e : Event) : yields (ret a) e a.
Proof. reflexivity. Qed.

Lemma yields_value {A : Type} (m : Method A) (e : Event) (v d : A) :
  yields m e v -> v = value_of (m e) d.
Proof. intros H. rewrite H. reflexivity. Qed.

(** ** The switch statement *)

Lemma switch_In {A : Type} (k : Z) (v : A) (cases : list (Z * A)) :
  NoDup (map fst cases) -> In (k, v) cases -> switch k cases = Some v.
Proof.
  induction cases as [|[l b] rest IH]; simpl; intros ND HIn.
  - contradiction.
  - inversion ND as [|? ? Hnotin ND']; subst.
    destruct HIn as [Heq | HIn].
    + inversion Heq; subst. rewrite Z.eqb_refl. reflexivity.
    + destruct (Z.eqb_spec k l) as [->|_].
      * exfalso. apply Hnotin. apply (in_map fst _ _ HIn).
      * apply IH; assumption.
Qed.

Lemma switch_None {A : Type} (k : Z) (cases : list (Z * A)) :
  ~ In k (map fst cases) -> switch k cases = None.
Proof.
  induction cases as [|[l b] rest IH]; simpl; intros Hnotin.
  - reflexivity.
  - destruct (Z.eqb_spec k l) as [->|_].
    + exfalso. apply Hnotin. left. reflexivity.
    + apply IH. intros H. apply Hnotin. right. exact H.
Qed.

Lemma switch_Some {A : Type} (k : Z) (v : A) (cases : list (Z * A)) :
  switch k cases = Some v -> In (k, v) cases.
Proof.
  induction cases as [|[l b] rest IH]; simpl; intros H.
  - discriminate.
  - destruct (Z.eqb_spec k l) as [->|_].
    + inversion H; subst. left. reflexivity.
    + right. apply IH. exact H.
Qed.

Lemma distinct_at (l : list Z) (i j : nat) :
  NoDup l -> Nat.eqb i j = false ->
  (i <? List.length l)%nat = true -> (j <? List.length l)%nat = true ->
  nth i l 0 <> nth j l 0.
Proof.
  intros ND Hij Hi Hj Heq.
  apply Nat.eqb_neq in Hij. apply Hij.
  apply Nat.ltb_lt in Hi, Hj.
  exact (proj1 (NoDup_nth l 0) ND i j Hi Hj Heq).
Qed.

Ltac index_of x l :=
  lazymatch l with
  | x :: _ => constr:(O)
  | _ :: ?t => let n := index_of x t in constr:(S n)
  end.

(** Two constants of event.h differ, by the distinctness of the labels. *)
Ltac by_distinct ND :=
  lazymatch goal with
  | |- ?a <> ?b =>
      let l := eval cbv [map fst name_cases] in (map fst name_cases) in
      let i := index_of a l in
      let j := index_of b l in
      exact (distinct_at l i j ND eq_refl eq_refl eq_refl)
  end.

(** An equation between two of them is absurd. *)
Ltac absurd_eq ND H :=
  lazymatch type of H with
  | ?a = ?b =>
      let Hne := fresh in
      assert (Hne : a <> b) by by_distinct ND; exact (False_ind _ (Hne H))
  end.

Section ClassificationFacts.
Context {K : EventTypes}.

Lemma getEventName_system (e : Event) :
  Z.land (type e) 0xF0 = 0xF0 -> yields getEventName e "System message".
Proof.
  intros H. unfold yields, getEventName.
  rewrite (bind_yields _ _ _ _ (field_yields type e)).
  rewrite H. reflexivity.
Qed.

Lemma getEventName_switch (e : Event) :
  Z.land (type e) 0xF0 <> 0xF0 ->
  yields getEventName e
    match switch (type e) name_cases with
    | Some name => name
    | None => "Unknown event type"
    end.
Proof.
  intros H. unfold yields, getEventName.
  rewrite (bind_yields _ _ _ _ (field_yields type e)).
  apply Z.eqb_neq in H. rewrite H.
  destruct (switch (type e) name_cases); reflexivity.
Qed.

Lemma getEventName_case (e : Event) (name : string) :
  labels_distinct -> Z.land (type e) 0xF0 <> 0xF0 ->
  In (type e, name) name_cases -> yields getEventName e name.
Proof.
  intros ND H HIn. unfold yields.
  rewrite (getEventName_switch e H), (switch_In _ _ _ ND HIn). reflexivity.
Qed.

Lemma getEventName_total (e : Event) : exists v, yields getEventName e v.
Proof.
  destruct (Z.eq_dec (Z.land (type e) 0xF0) 0xF0) as [H|H].
  - eexists. apply getEventName_system, H.
  - eexists. apply getEventName_switch, H.
Qed.

Lemma getEventLength_switch (e : Event) :
  yields getEventLength e
    match switch (type e) length_cases with
    | Some n => n
    | None => -1
    end.
Proof.
  unfold yields, getEventLength.
  rewrite (bind_yields _ _ _ _ (field_yields type e)).
  destruct (switch (type e) length_cases); reflexivity.
Qed.

Lemma length_labels_distinct :
  labels_distinct -> NoDup (map fst length_cases).
Proof.
  intros ND. cbv [map fst length_cases].
  repeat (constructor;
          [ cbn [In]; intros H;
            repeat (destruct H as [H|H]; [ absurd_eq ND H | ]);
            exact H | ]).
  constructor.
Qed.

End ClassificationFacts.

Lemma midi_types_distinct : @labels_distinct midi_types.
Proof.
  unfold labels_distinct. cbv [map fst name_cases midi_types
    NOTE_OFF NOTE_ON KEY_PRESSURE CONTROL_CHANGE PROGRAM_CHANGE
    CHANNEL_PRESSURE PITCH_WHEEL_CHANGE SEQUENCE_NUMBER TEXT_EVENT COPYRIGHT
    SEQUENCE_NAME INSTRUMENT LYRIC MARKER_TEXT CUE_POINT MIDI_CHANNEL_PREFIX
    END_OF_TRACK TEMPO SMPTE_OFFSET TIME_SIGNATURE KEY_SIGNATURE
    SEQUENCER_SPECIFIC].
  repeat (constructor;
          [ cbn [In]; intros H;
            repeat (destruct H as [H|H]; [discriminate H|]); exact H | ]).
  constructor.
Qed.

(** ** Classification by name *)

(** C1: a type byte whose high nibble is 0xF is named "System message",
    whatever its low nibble and whether or not a case label equals it; a
    type whose high nibble is not 0xF and that equals none of the 22 case
    labels is named "Unknown event type". *)
Theorem getEventName_system_first {K : EventTypes} (e : Event) :
  (Z.land (type e) 0xF0 = 0xF0 -> yields getEventName e "System message") /\
  (forall low, 0 <= low < 16 -> type e = 0xF0 + low ->
     yields getEventName e "System message") /\
  (Z.land (type e) 0xF0 <> 0xF0 -> ~ In (type e) (map fst name_cases) ->
     yields getEventName e "Unknown event type").
Proof.
  split; [| split].
  - apply getEventName_system.
  - intros low Hlow Hty. apply getEventName_system. rewrite Hty.
    assert (Hc : low = 0 \/ low = 1 \/ low = 2 \/ low = 3 \/ low = 4 \/
                 low = 5 \/ low = 6 \/ low = 7 \/ low = 8 \/ low = 9 \/
                 low = 10 \/ low = 11 \/ low = 12 \/ low = 13 \/
                 low = 14 \/ low = 15) by lia.
    repeat (destruct Hc as [->|Hc]; [reflexivity|]). subst low. reflexivity.
  - intros Hhigh Hnot. unfold yields.
    rewrite (getEventName_switch e Hhigh), (switch_None _ _ Hnot).
    reflexivity.
Qed.

Lemma getEventName_system_first_witness :
  yields (@getEventName midi_types) (mkEvent 0xFF true 0 0 0 0 0)
         "System message" /\
  yields (@getEventName midi_types) (mkEvent 0xF3 false 0 0 0 0 0)
         "System message" /\
  yields (@getEventName midi_types) (mkEvent 0x10 false 0 0 0 0 0)
         "Unknown event type".
Proof.
  split; [| split].
  - apply (proj1 (@getEventName_system_first midi_types
                    (mkEvent 0xFF true 0 0 0 0 0))).
    reflexivity.
  - apply (proj1 (proj2 (@getEventName_system_first midi_types
                           (mkEvent 0xF3 false 0 0 0 0 0))) 3).
    + lia.
    + reflexivity.
  - apply (proj2 (proj2 (@getEventName_system_first midi_types
                           (mkEvent 0x10 false 0 0 0 0 0)))).
    + simpl. discriminate.
    + simpl. intros H.
      repeat (destruct H as [H|H]; [discriminate H|]). exact H.
Defined.




(** ** Classification by length *)

Section LengthFacts.
Context {K : EventTypes}.

Lemma getEventLength_case (e : Event) (n : Z) :
  labels_distinct -> In (type e, n) length_cases -> yields getEventLength e n.
Proof.
  intros ND HIn. unfold yields.
  rewrite (getEventLength_switch e).
  rewrite (switch_In _ _ _ (length_labels_distinct ND) HIn). reflexivity.
Qed.

Lemma getEventLength_other (e : Event) :
  ~ In (type e) (map fst length_cases) -> yields getEventLength e (-1).
Proof.
  intros Hnot. unfold yields.
  rewrite (getEventLength_switch e), (switch_None _ _ Hnot). reflexivity.
Qed.

Lemma untabulated_labels (t : Z) :
  labels_distinct ->
  t = NOTE_ON \/ t = NOTE_OFF \/ t = TEXT_EVENT ->
  ~ In t (map fst length_cases).
Proof.
  intros ND [-> | [-> | ->]]; cbv [map fst length_cases]; cbn [In]; intros H;
    repeat (destruct H as [H|H]; [ absurd_eq ND H | ]); exact H.
Qed.

End LengthFacts.

Ltac length_case ND :=
  let H := fresh in
  intros H; apply (getEventLength_case _ _ ND); rewrite H; simpl; tauto.

(** C3: the twelve types with a fixed payload length get that length, every
    other type gets -1, among them NOTE_ON, NOTE_OFF and TEXT_EVENT. *)
Theorem getEventLength_table {K : EventTypes} (e : Event) :
  labels_distinct ->
  (type e = KEY_PRESSURE -> yields getEventLength e 2) /\
  (type e = CONTROL_CHANGE -> yields getEventLength e 2) /\
  (type e = PROGRAM_CHANGE -> yields getEventLength e 1) /\
  (type e = CHANNEL_PRESSURE -> yields getEventLength e 1) /\
  (type e = PITCH_WHEEL_CHANGE -> yields getEventLength e 2) /\
  (type e = SEQUENCE_NUMBER -> yields getEventLength e 2) /\
  (type e = MIDI_CHANNEL_PREFIX -> yields getEventLength e 1) /\
  (type e = END_OF_TRACK -> yields getEventLength e 0) /\
  (type e = TEMPO -> yields getEventLength e 3) /\
  (type e = SMPTE_OFFSET -> yields getEventLength e 5) /\
  (type e = TIME_SIGNATURE -> yields getEventLength e 4) /\
  (type e = KEY_SIGNATURE -> yields getEventLength e 2) /\
  (~ In (type e)
        [ KEY_PRESSURE; CONTROL_CHANGE; PROGRAM_CHANGE; CHANNEL_PRESSURE;
          PITCH_WHEEL_CHANGE; SEQUENCE_NUMBER; MIDI_CHANNEL_PREFIX;
          END_OF_TRACK; TEMPO; SMPTE_OFFSET; TIME_SIGNATURE; KEY_SIGNATURE ] ->
     yields getEventLength e (-1)) /\
  (type e = NOTE_ON \/ type e = NOTE_OFF \/ type e = TEXT_EVENT ->
     yields getEventLength e (-1)).
Proof.
  intros ND.
  repeat (split; [ length_case ND | ]).
  split.
  - apply getEventLength_other.
  - intros H. apply getEventLength_other, (untabulated_labels _ ND H).
Qed.

Lemma getEventLength_table_witness :
  yields (@getEventLength midi_types) (mkEvent 0x51 true 0 0 500000 0 0) 3 /\
  yields (@getEventLength midi_types) (mkEvent 0x90 false 60 100 0 0 0) (-1) /\
  yields (@getEventLength midi_types) (mkEvent 0x33 false 0 0 0 0 0) (-1).
Proof.
  pose proof (@getEventLength_table midi_types
                (mkEvent 0x51 true 0 0 500000 0 0) midi_types_distinct) as T.
  pose proof (@getEventLength_table midi_types
                (mkEvent 0x90 false 60 100 0 0 0) midi_types_distinct) as N.
  pose proof (@getEventLength_table midi_types
                (mkEvent 0x33 false 0 0 0 0 0) midi_types_distinct) as U.
  destruct T as (_ & _ & _ & _ & _ & _ & _ & _ & T & _).
  destruct N as (_ & _ & _ & _ & _ & _ & _ & _ & _ & _ & _ & _ & _ & N).
  destruct U as (_ & _ & _ & _ & _ & _ & _ & _ & _ & _ & _ & _ & U & _).
  split; [| split].
  - apply T. reflexivity.
  - apply N. left. reflexivity.
  - apply U. simpl. intros H.
    repeat (destruct H as [H|H]; [discriminate H|]). exact H.
Defined.

(** ** Strings *)

Lemma app_assoc_s (a b c : string) : (a ++ b) ++ c = a ++ (b ++ c).
Proof. induction a as [|x a IH]; simpl; [reflexivity | now rewrite IH]. Qed.

Lemma app_nil_s (a : string) : a ++ "" = a.
Proof. induction a as [|x a IH]; simpl; [reflexivity | now rewrite IH]. Qed.

Lemma length_app_s (a b : string) :
  String.length (a ++ b) = (String.length a + String.length b)%nat.
Proof. induction a as [|x a IH]; simpl; [reflexivity | now rewrite IH]. Qed.

Lemma strlen_app (a b : string) : strlen (a ++ b) = strlen a + strlen b.
Proof. unfold strlen. rewrite length_app_s. lia. Qed.

Lemma strlen_nonneg (a : string) : 0 <= strlen a.
Proof. unfold strlen. lia. Qed.

Lemma length_spaces (n : nat) : String.length (spaces n) = n.
Proof. induction n as [|n IH]; simpl; [reflexivity | now rewrite IH]. Qed.

(** ** Note names *)

Lemma getNoteName_run (e : Event) :
  yields getNoteName e
    (match switch (Z.rem (note e) 12) note_cases with
     | Some pitch => "" ++ pitch
     | None => ""
     end ++ to_string (Z.quot (note e) 12 - 1)).
Proof.
  unfold yields, getNoteName.
  rewrite (bind_yields _ _ _ _ (field_yields note e)). reflexivity.
Qed.

(** C4: for a note byte, the name is the pitch class of [note mod 12] in the
    sharps list followed by the decimal octave [note / 12 - 1]; notes 60,
    69, 0 and 12 are C4, A4, C-1 and C0. *)
Theorem getNoteName_sharps (e : Event) :
  (is_byte (note e) ->
   yields getNoteName e
     (nth (Z.to_nat (note e mod 12)) sharps "" ++ to_string (note e / 12 - 1)))
  /\ (note e = 60 -> yields getNoteName e "C4")
  /\ (note e = 69 -> yields getNoteName e "A4")
  /\ (note e = 0 -> yields getNoteName e "C-1")
  /\ (note e = 12 -> yields getNoteName e "C0").
Proof.
  pose proof (getNoteName_run e) as R. unfold yields in *.
  split; [| split; [| split; [| split]]; intros H; rewrite R, H; reflexivity].
  intros [Hlo Hhi]. rewrite R.
  rewrite (Z.rem_mod_nonneg (note e) 12), (Z.quot_div_nonneg (note e) 12)
    by lia.
  generalize (to_string (note e / 12 - 1)) as octave. intros octave.
  pose proof (Z.mod_pos_bound (note e) 12 ltac:(lia)) as Hr.
  remember (note e mod 12) as r eqn:Er. clear Er.
  assert (Hc : r = 0 \/ r = 1 \/ r = 2 \/ r = 3 \/ r = 4 \/ r = 5 \/ r = 6 \/
               r = 7 \/ r = 8 \/ r = 9 \/ r = 10 \/ r = 11) by lia.
  repeat (destruct Hc as [-> | Hc]; [reflexivity |]).
  subst r. reflexivity.
Qed.

Lemma getNoteName_sharps_witness :
  yields getNoteName (mkEvent 0x90 false 61 100 0 0 0) "C#4" /\
  yields getNoteName (mkEvent 0x90 false 60 100 0 0 0) "C4" /\
  yields getNoteName (mkEvent 0x90 false 69 100 0 0 0) "A4" /\
  yields getNoteName (mkEvent 0x90 false 0 100 0 0 0) "C-1" /\
  yields getNoteName (mkEvent 0x90 false 12 100 0 0 0) "C0".
Proof.
  split; [| split; [| split; [| split]]].
  - apply (proj1 (getNoteName_sharps (mkEvent 0x90 false 61 100 0 0 0))).
    unfold is_byte. simpl. lia.
  - apply (getNoteName_sharps (mkEvent 0x90 false 60 100 0 0 0)).
    reflexivity.
  - apply (getNoteName_sharps (mkEvent 0x90 false 69 100 0 0 0)).
    reflexivity.
  - apply (getNoteName_sharps (mkEvent 0x90 false 0 100 0 0 0)).
    reflexivity.
  - apply (getNoteName_sharps (mkEvent 0x90 false 12 100 0 0 0)).
    reflexivity.
Defined.

(** ** Channel nibble *)

Lemma u8_land_F0 (t : Z) : u8 (Z.land t 0xF0) = Z.land t 0xF0.
Proof.
  unfold u8. change 256 with (2 ^ 8).
  rewrite <- Z.land_ones by lia. rewrite <- Z.land_assoc. reflexivity.
Qed.

Lemma stripChannel_run (e : Event) :
  stripChannel e =
    Returns tt (mkEvent (Z.land (type e) 0xF0) (meta e) (note e) (velocity e)
                        (tempo e) (totalTime e) (delta e)) [].
Proof.
  unfold stripChannel.
  rewrite (bind_yields _ _ _ _ (field_yields type e)).
  unfold assign_type. rewrite u8_land_F0. reflexivity.
Qed.

Lemma getChannel_run (e : Event) : yields getChannel e (Z.land (type e) 0x0F).
Proof.
  unfold yields, getChannel.
  rewrite (bind_yields _ _ _ _ (field_yields type e)). reflexivity.
Qed.

(** C6: getChannel returns the low nibble of the type, stripChannel sets the
    type to its high nibble; on type 0x91 they give 1 and 0x90. *)
Theorem channel_nibbles (e : Event) :
  yields getChannel e (Z.land (type e) 0x0F) /\
  (exists e', stripChannel e = Returns tt e' [] /\
              type e' = Z.land (type e) 0xF0) /\
  (type e = 0x91 -> yields getChannel e 1) /\
  (type e = 0x91 ->
   exists e', stripChannel e = Returns tt e' [] /\ type e' = 0x90).
Proof.
  split; [apply getChannel_run |].
  split; [eexists; split; [apply stripChannel_run | reflexivity] |].
  split; intros H.
  - unfold yields. rewrite (getChannel_run e), H. reflexivity.
  - eexists. split; [apply stripChannel_run |]. simpl. rewrite H. reflexivity.
Qed.

Lemma channel_nibbles_witness :
  yields getChannel (mkEvent 0x91 false 60 100 0 0 0) 1 /\
  exists e', stripChannel (mkEvent 0x91 false 60 100 0 0 0)
             = Returns tt e' [] /\ type e' = 0x90.
Proof.
  split.
  - apply (proj1 (proj2 (proj2
             (channel_nibbles (mkEvent 0x91 false 60 100 0 0 0))))).
    reflexivity.
  - apply (proj2 (proj2 (proj2
             (channel_nibbles (mkEvent 0x91 false 60 100 0 0 0))))).
    reflexivity.
Defined.

(** ** Padding *)

Lemma formatColumn_spaces (s : string) (width : Z) :
  formatColumn s width = s ++ spaces (Z.to_nat (width - strlen s)).
Proof.
  funelim (formatColumn s width).
  - match goal with
    | IH : formatColumn _ _ = _ ++ spaces _ |- _ => rewrite IH
    end.
    rewrite strlen_app. change (strlen " ") with 1.
    replace (Z.to_nat (width - strlen s))
      with (S (Z.to_nat (width - (strlen s + 1)))) by lia.
    rewrite app_assoc_s. reflexivity.
  - replace (Z.to_nat (width - strlen s)) with O by lia.
    simpl. symmetry. apply app_nil_s.
Qed.

Lemma formatColumn_fits (s : string) (width : Z) :
  strlen s >= width -> formatColumn s width = s.
Proof.
  intros H. rewrite formatColumn_spaces.
  replace (Z.to_nat (width - strlen s)) with O by lia.
  simpl. apply app_nil_s.
Qed.

Lemma strlen_formatColumn (s : string) (width : Z) :
  strlen (formatColumn s width) = Z.max (strlen s) width.
Proof.
  rewrite formatColumn_spaces, strlen_app.
  unfold strlen at 2. rewrite length_spaces.
  pose proof (strlen_nonneg s). lia.
Qed.

(** C7: formatColumn appends spaces, one at a time, until the text is as
    long as the width; a text already that long comes back unchanged,
    nothing is cut off. *)
Theorem formatColumn_pads (s : string) (width : Z) :
  formatColumn s width = s ++ spaces (Z.to_nat (width - strlen s)) /\
  strlen (formatColumn s width) = Z.max (strlen s) width /\
  (strlen s >= width -> formatColumn s width = s) /\
  formatColumn "abc" 6 = "abc   " /\
  formatColumn "abcdef" 3 = "abcdef".
Proof.
  split; [apply formatColumn_spaces |].
  split; [apply strlen_formatColumn |].
  split; [apply formatColumn_fits |].
  split; rewrite formatColumn_spaces; reflexivity.
Qed.

Lemma formatColumn_pads_witness :
  formatColumn "Note C4" 9 = "Note C4  " /\
  formatColumn "1234567" 6 = "1234567".
Proof.
  split.
  - rewrite (proj1 (formatColumn_pads "Note C4" 9)). reflexivity.
  - apply (proj1 (proj2 (proj2 (formatColumn_pads "1234567" 6)))).
    vm_compute. discriminate.
Defined.

(** ** Which fields a call can change *)

(** C9: stripChannel changes the type field only; getEventName,
    getEventLength, getNoteName and getChannel return with every field as
    it was, and none of the five reaches the logger. *)
Theorem calls_frame {K : EventTypes} (e : Event) :
  (exists e', stripChannel e = Returns tt e' [] /\
     meta e' = meta e /\ note e' = note e /\ velocity e' = velocity e /\
     tempo e' = tempo e /\ totalTime e' = totalTime e /\ delta e' = delta e) /\
  (exists name, getEventName e = Returns name e []) /\
  (exists n, getEventLength e = Returns n e []) /\
  (exists name, getNoteName e = Returns name e []) /\
  (exists c, getChannel e = Returns c e []).
Proof.
  split.
  { eexists. split; [apply stripChannel_run |]. simpl. repeat split. }
  split; [apply getEventName_total |].
  split; [eexists; apply getEventLength_switch |].
  split; [eexists; apply getNoteName_run |].
  eexists; apply getChannel_run.
Qed.

(** ** The trace row *)

Lemma skipn_cons_nth (k : nat) (file : list Z) :
  (k < List.length file)%nat ->
  exists b, nth_error file k = Some b /\ skipn k file = b :: skipn (S k) file.
Proof.
  revert file. induction k as [|k IH]; intros [|x file] Hk; simpl in Hk;
    try lia.
  - exists x. split; reflexivity.
  - destruct (IH file ltac:(lia)) as (b & Hb & Hs).
    exists b. split; [exact Hb | exact Hs].
Qed.

Lemma read_yields (file : list Z) (index b : Z) (e : Event) :
  0 <= index -> nth_error file (Z.to_nat index) = Some b ->
  yields (read file index) e b.
Proof.
  intros Hi Hb. unfold yields, read.
  destruct (Z.ltb_spec index 0) as [Hneg|_]; [lia |].
  rewrite Hb. reflexivity.
Qed.

Section RowFacts.
Context {K : EventTypes} {L : LogApi}.

Lemma hexdump_run (n : nat) :
  forall (i pos : Z) (file : list Z) (content : string) (e : Event),
    0 <= pos + i ->
    (Z.to_nat (pos + i) + n <= List.length file)%nat ->
    yields (hexdump n i pos file content) e
           (content ++ dump (firstn n (skipn (Z.to_nat (pos + i)) file))).
Proof.
  induction n as [|n IH]; intros i pos file content e Hlo Hhi.
  - unfold yields. simpl. rewrite app_nil_s. reflexivity.
  - destruct (skipn_cons_nth (Z.to_nat (pos + i)) file ltac:(lia))
      as (b & Hb & Hs).
    unfold yields. cbn [hexdump].
    rewrite (bind_yields _ _ _ _ (read_yields file (pos + i) b e Hlo Hb)).
    rewrite IH by lia.
    rewrite Hs. cbn [firstn dump fold_right].
    replace (Z.to_nat (pos + (i + 1))) with (S (Z.to_nat (pos + i))) by lia.
    rewrite !app_assoc_s. reflexivity.
Qed.

Lemma hexdump_window (pos : Z) (file : list Z) (len : Z) (e : Event) :
  in_buffer pos file len ->
  yields (hexdump (Z.to_nat len) 0 pos file "") e
         (dump (window pos file len)).
Proof.
  intros [Hpos Hlen]. unfold window.
  pose proof (hexdump_run (Z.to_nat len) 0 pos file "" e) as H.
  rewrite Z.add_0_r in H. apply H; lia.
Qed.

Lemma length_take (n : nat) (s : string) :
  String.length (take n s) = Nat.min n (String.length s).
Proof.
  revert s. induction n as [|n IH]; intros [|c s]; simpl; try reflexivity.
  now rewrite IH.
Qed.

Lemma length_drop (n : nat) (s : string) :
  String.length (drop n s) = (String.length s - n)%nat.
Proof.
  revert s. induction n as [|n IH]; intros [|c s]; simpl; try reflexivity.
  apply IH.
Qed.

Lemma string_replace_run (s str : string) (pos count : Z) (e : Event) :
  0 <= pos <= strlen s -> 0 <= count <= strlen s - pos ->
  yields (string_replace s pos count str) e
         (take (Z.to_nat pos) s ++ str ++ drop (Z.to_nat pos + Z.to_nat count) s).
Proof.
  intros Hpos Hcount. unfold yields, string_replace.
  destruct (Z.gtb_spec pos (strlen s)) as [Hgt|_]; [lia |].
  rewrite Z.min_l by lia.
  replace (Z.to_nat (pos + count)) with (Z.to_nat pos + Z.to_nat count)%nat
    by lia.
  reflexivity.
Qed.

Lemma size_sub_34 (n : Z) : n > 39 -> size_sub n 34 = n - 34.
Proof.
  intros H. unfold size_sub.
  destruct (Z.ltb_spec n 34) as [Hlt|_]; [lia | reflexivity].
Qed.

Lemma truncate_run (content : string) (e : Event) :
  yields (if strlen content >? 39
          then string_replace content 27 (size_sub (strlen content) 34) "[...]"
          else ret content) e (elide content).
Proof.
  unfold elide.
  destruct (Z.gtb_spec (strlen content) 39) as [Hgt|Hle].
  - rewrite size_sub_34 by lia.
    apply (string_replace_run content "[...]" 27 (strlen content - 34) e); lia.
  - reflexivity.
Qed.

Lemma print_run (pos : Z) (file : list Z) (len : Z) (e : Event) :
  in_buffer pos file len ->
  print pos file len e
  = Returns tt e [debug (row_of pos (window pos file len) e)].
Proof.
  intros Hwin.
  destruct (getEventName_total e) as (name & Hname).
  pose proof (yields_value _ _ _ "" Hname) as Ename.
  pose proof (getNoteName_run e) as Hnote.
  pose proof (yields_value _ _ _ "" Hnote) as Enote.
  pose proof (hexdump_window pos file len e Hwin) as Hdump.
  pose proof (truncate_run (dump (window pos file len)) e) as Htrunc.
  pose proof (getChannel_run e) as Hchan.
  unfold yields in *.
  unfold print, bind, row_of.
  rewrite Hdump. cbv beta iota. rewrite Htrunc.
  unfold field, ret, Log_debug. cbv beta iota.
  rewrite <- Ename, <- Enote. rewrite Hname.
  destruct (meta e); cbv beta iota; [| rewrite Hchan; cbv beta iota];
    (destruct ((type e =? NOTE_ON) || (type e =? NOTE_OFF));
     cbv beta iota;
     [ rewrite Hnote | destruct (type e =? TEMPO) ];
     cbv beta iota; cbn [List.app];
     rewrite ?app_assoc_s, ?app_nil_s; reflexivity).
Qed.

(** A window that leaves the buffer is read out of bounds. *)
Lemma print_outside_buffer (pos : Z) (e : Event) :
  print pos [] 1 e = Fault.
Proof.
  assert (H : hexdump (Z.to_nat 1) 0 pos [] "" e = Fault).
  { change (Z.to_nat 1) with 1%nat. cbn [hexdump]. unfold bind, read.
    destruct (pos + 0 <? 0); [reflexivity |].
    destruct (Z.to_nat (pos + 0)); reflexivity. }
  unfold print, bind. rewrite H. reflexivity.
Qed.

End RowFacts.

(** ** Characters and occurrences *)

Lemma has_char_app (c : ascii) (a b : string) :
  has_char c (a ++ b) = has_char c a || has_char c b.
Proof.
  induction a as [|x a IH]; simpl; [reflexivity |].
  rewrite IH. apply orb_assoc.
Qed.

Lemma contains_has_char (c : ascii) (sub s : string) :
  contains sub s -> has_char c sub = true -> has_char c s = true.
Proof.
  intros (pre & post & ->) H.
  rewrite !has_char_app, H. apply orb_true_iff. right. reflexivity.
Qed.

Lemma contains_suffix (sub a b : string) :
  contains sub b -> contains sub (a ++ b).
Proof.
  intros (pre & post & ->). exists (a ++ pre), post.
  rewrite app_assoc_s. reflexivity.
Qed.

Lemma strip_prefix_sound (p : string) :
  forall s r, strip_prefix p s = Some r -> s = p ++ r.
Proof.
  induction p as [|a p IH]; intros s r H; simpl in H.
  - inversion H. reflexivity.
  - destruct s as [|b s]; [discriminate |].
    destruct (Ascii.eqb_spec a b) as [->|_]; [| discriminate].
    simpl. f_equal. apply IH, H.
Qed.

Lemma occurs_contains (sub s : string) :
  occurs sub s = true -> contains sub s.
Proof.
  induction s as [|c s IH]; simpl.
  - destruct (strip_prefix sub "") as [r|] eqn:E; [| discriminate].
    intros _. exists "", r. apply (strip_prefix_sound _ _ _ E).
  - destruct (strip_prefix sub (String c s)) as [r|] eqn:E.
    + intros _. exists "", r. apply (strip_prefix_sound _ _ _ E).
    + intros H. apply (contains_suffix sub (String c "") s), IH, H.
Qed.

Lemma substring_at (a b c : string) :
  substring (String.length a) (String.length b) (a ++ b ++ c) = b.
Proof.
  induction a as [|x a IH]; simpl; [| exact IH].
  induction b as [|y b IHb]; simpl.
  - destruct c; reflexivity.
  - rewrite IHb. reflexivity.
Qed.

Lemma has_char_spaces (n : nat) : has_char "[" (spaces n) = false.
Proof. induction n as [|n IH]; simpl; [reflexivity | exact IH]. Qed.

Lemma has_char_formatColumn (s : string) (width : Z) :
  has_char "[" (formatColumn s width) = has_char "[" s.
Proof.
  rewrite formatColumn_spaces, has_char_app, has_char_spaces.
  apply orb_false_r.
Qed.

Lemma has_char_uint (d : Decimal.uint) :
  has_char "[" (NilEmpty.string_of_uint d) = false.
Proof. induction d; simpl; assumption || reflexivity. Qed.

Lemma has_char_to_string (z : Z) : has_char "[" (to_string z) = false.
Proof.
  unfold to_string, NilZero.string_of_int, NilZero.string_of_uint.
  destruct (Z.to_int z) as [d|d]; destruct d; simpl;
    try reflexivity; apply has_char_uint.
Qed.

Lemma has_char_switch (k : Z) (cases : list (Z * string)) (v : string) :
  Forall (fun p => has_char "[" (snd p) = false) cases ->
  switch k cases = Some v -> has_char "[" v = false.
Proof.
  intros HF H. apply switch_Some in H.
  rewrite Forall_forall in HF. exact (HF _ H).
Qed.

Lemma has_char_note_name (e : Event) :
  has_char "[" (value_of (getNoteName e) "") = false.
Proof.
  rewrite (getNoteName_run e). cbn [value_of].
  rewrite has_char_app, has_char_to_string, orb_false_r.
  destruct (switch (Z.rem (note e) 12) note_cases) as [pitch|] eqn:E;
    [| reflexivity].
  refine (has_char_switch _ note_cases _ _ E).
  repeat constructor.
Qed.

Section RowCharacters.
Context {K : EventTypes} {L : LogApi}.

Lemma has_char_event_name (e : Event) :
  has_char "[" (value_of (getEventName e) "") = false.
Proof.
  destruct (Z.eq_dec (Z.land (type e) 0xF0) 0xF0) as [H|H].
  - rewrite (getEventName_system e H). reflexivity.
  - rewrite (getEventName_switch e H). cbn [value_of].
    destruct (switch (type e) name_cases) as [name|] eqn:E; [| reflexivity].
    refine (has_char_switch _ name_cases _ _ E).
    repeat constructor.
Qed.

Lemma has_char_dump (bytes : list Z) :
  no_bracket L -> has_char "[" (dump bytes) = false.
Proof.
  intros HL. induction bytes as [|b bytes IH]; [reflexivity |].
  cbn [dump fold_right]. rewrite !has_char_app, HL.
  exact IH.
Qed.

Lemma has_char_row (pos : Z) (bytes : list Z) (e : Event) :
  no_bracket L -> strlen (dump bytes) <= 39 ->
  has_char "[" (row_of pos bytes e) = false.
Proof.
  intros HL Hshort. unfold row_of, elide.
  destruct (Z.gtb_spec (strlen (dump bytes)) 39) as [Hgt|_]; [lia |].
  rewrite !has_char_app, !has_char_formatColumn.
  rewrite HL, (has_char_dump _ HL), !has_char_to_string, has_char_event_name.
  cbn [has_char orb Ascii.eqb Bool.eqb].
  destruct (meta e);
    destruct ((type e =? NOTE_ON) || (type e =? NOTE_OFF));
    try destruct (type e =? TEMPO);
    rewrite ?has_char_app, ?has_char_formatColumn, ?has_char_app,
      ?has_char_to_string, ?has_char_note_name;
    reflexivity.
Qed.

End RowCharacters.

(** ** The hex dump column *)

Section DumpColumn.
Context {K : EventTypes} {L : LogApi}.

Lemma row_of_columns (pos : Z) (bytes : list Z) (e : Event) :
  exists rest,
    row_of pos bytes e
    = offset_column pos ++ formatColumn (elide (dump bytes)) 39 ++ "| " ++ rest.
Proof.
  eexists. unfold row_of, offset_column. rewrite app_assoc_s. reflexivity.
Qed.

Lemma elide_short (content : string) :
  strlen content <= 39 -> elide content = content.
Proof.
  intros H. unfold elide.
  destruct (Z.gtb_spec (strlen content) 39); [lia | reflexivity].
Qed.

Lemma elide_long (content : string) :
  strlen content > 39 ->
  elide content
  = take 27 content ++ "[...]"
      ++ drop (27 + Z.to_nat (strlen content - 34)) content.
Proof.
  intros H. unfold elide.
  destruct (Z.gtb_spec (strlen content) 39); [reflexivity | lia].
Qed.

Lemma strlen_elide_long (content : string) :
  strlen content > 39 -> strlen (elide content) = 39.
Proof.
  intros H. rewrite (elide_long content H).
  unfold strlen in *. rewrite !length_app_s, length_take, length_drop.
  cbn [String.length]. lia.
Qed.

Lemma marker_in_column (content : string) :
  strlen content > 39 -> substring 27 5 (elide content) = "[...]".
Proof.
  intros H. rewrite (elide_long content H).
  assert (E : String.length (take 27 content) = 27%nat)
    by (rewrite length_take; unfold strlen in H; lia).
  rewrite <- E at 1. apply (substring_at _ "[...]").
Qed.

Lemma marker_in_row (lead content rest : string) (width : Z) :
  strlen content > 39 ->
  substring (String.length lead + 27) 5
            (lead ++ formatColumn (elide content) width ++ rest)
  = "[...]".
Proof.
  intros H. rewrite formatColumn_spaces, (elide_long content H).
  assert (E : (String.length lead + 27)%nat
              = String.length (lead ++ take 27 content))
    by (rewrite length_app_s, length_take; unfold strlen in H; lia).
  rewrite E, !app_assoc_s, <- (app_assoc_s lead).
  apply (substring_at _ "[...]").
Qed.

End DumpColumn.

(** C5: a hex dump of at most 39 characters goes into the row as it is, and
    the row then holds no "[...]"; in a longer one the [length - 34]
    characters from index 27 on are replaced by "[...]", which so sits at
    index 27 of the dump column. *)
Theorem print_elides_long_dump {K : EventTypes} {L : LogApi}
        (pos : Z) (file : list Z) (len : Z) (e : Event) :
  in_buffer pos file len ->
  exists column rest,
    print pos file len e
    = Returns tt e
        [debug (offset_column pos ++ formatColumn column 39 ++ "| " ++ rest)]
    /\ (strlen (dump (window pos file len)) <= 39 ->
        column = dump (window pos file len) /\
        (no_bracket L ->
         ~ contains "[...]"
             (offset_column pos ++ formatColumn column 39 ++ "| " ++ rest)))
    /\ (strlen (dump (window pos file len)) > 39 ->
        column
        = take 27 (dump (window pos file len)) ++ "[...]"
            ++ drop (27 + Z.to_nat (strlen (dump (window pos file len)) - 34))
                    (dump (window pos file len)) /\
        substring 27 5 column = "[...]" /\
        substring (String.length (offset_column pos) + 27) 5
          (offset_column pos ++ formatColumn column 39 ++ "| " ++ rest)
        = "[...]").
Proof.
  intros Hwin.
  destruct (row_of_columns pos (window pos file len) e) as (rest & Hrow).
  exists (elide (dump (window pos file len))), rest.
  split; [| split].
  - rewrite (print_run pos file len e Hwin), Hrow. reflexivity.
  - intros Hshort. split; [apply elide_short, Hshort |].
    intros HL Hc. rewrite <- Hrow in Hc.
    pose proof (contains_has_char "[" _ _ Hc eq_refl) as Hb.
    rewrite (has_char_row pos _ e HL Hshort) in Hb. discriminate.
  - intros Hlong. split; [apply elide_long, Hlong |].
    split; [apply marker_in_column, Hlong |].
    apply marker_in_row, Hlong.
Qed.

(** ** The formatter of the specification *)

Lemma hex_digit_no_bracket (d : Z) : Ascii.eqb "[" (hex_digit d) = false.
Proof.
  destruct d as [|p|p]; try reflexivity.
  do 4 (try destruct p as [p|p|]); reflexivity.
Qed.

Lemma spec_log_renders : renders_bytes spec_log.
Proof. intros b _. reflexivity. Qed.

Lemma spec_log_no_bracket : no_bracket spec_log.
Proof.
  assert (Hp : forall digits n, has_char "[" (hex_padded digits n) = false).
  { induction digits as [|d IH]; intros n; [reflexivity |].
    cbn [hex_padded]. rewrite has_char_app, IH. cbn [has_char orb].
    rewrite hex_digit_no_bracket. reflexivity. }
  intros num [[|]|]; cbn [to_hex_string spec_log]; try apply Hp.
  unfold hex_byte. cbn [has_char]. rewrite !hex_digit_no_bracket.
  reflexivity.
Qed.

Lemma print_elides_long_dump_witness :
  (exists column rest,
     @print midi_types spec_log 2 (repeat 0xAB 16) 14
            (mkEvent 0x51 true 0 0 500000 480 480)
     = Returns tt (mkEvent 0x51 true 0 0 500000 480 480)
         [debug (@offset_column spec_log 2 ++ formatColumn column 39
                   ++ "| " ++ rest)]
     /\ column = "ab ab ab ab ab ab ab ab ab [...] ab ab ") /\
  (exists row,
     @print midi_types spec_log 16 (repeat 0 16 ++ [0x90; 0x3C; 0x64]) 3
            (mkEvent 0x90 false 60 100 0 480 480)
     = Returns tt (mkEvent 0x90 false 60 100 0 480 480) [debug row]
     /\ ~ contains "[...]" row).
Proof.
  split.
  - destruct (@print_elides_long_dump midi_types spec_log
                2 (repeat 0xAB 16) 14 (mkEvent 0x51 true 0 0 500000 480 480))
      as (column & rest & Hprint & _ & Hlong).
    + split; [lia | simpl; lia].
    + exists column, rest. split; [exact Hprint |].
      destruct (Hlong eq_refl) as (Hcol & _). rewrite Hcol.
      vm_compute. reflexivity.
  - destruct (@print_elides_long_dump midi_types spec_log
                16 (repeat 0 16 ++ [0x90; 0x3C; 0x64]) 3
                (mkEvent 0x90 false 60 100 0 480 480))
      as (column & rest & Hprint & Hshort & _).
    + split; [lia | simpl; lia].
    + eexists. split; [exact Hprint |].
      apply (Hshort ltac:(vm_compute; discriminate)), spec_log_no_bracket.
Defined.

(** ** Bounds of the truncation *)

Section TruncationBounds.
Context {K : EventTypes} {L : LogApi}.

Lemma strlen_dump (bytes : list Z) :
  renders_bytes L -> Forall is_byte bytes ->
  strlen (dump bytes) = 3 * Z.of_nat (List.length bytes).
Proof.
  intros HL HF. induction HF as [|b bytes Hb HF IH]; [reflexivity |].
  cbn [dump fold_right List.length]. rewrite !strlen_app, (HL b Hb).
  change (strlen (hex_byte b)) with 2. change (strlen " ") with 1.
  fold (dump bytes). rewrite IH. lia.
Qed.

Lemma window_bytes (pos : Z) (file : list Z) (len : Z) :
  Forall is_byte file -> Forall is_byte (window pos file len).
Proof.
  intros HF. rewrite Forall_forall in *. intros b Hb. apply HF.
  unfold window in Hb.
  rewrite <- (firstn_skipn (Z.to_nat pos) file). apply in_or_app. right.
  rewrite <- (firstn_skipn (Z.to_nat len) (skipn (Z.to_nat pos) file)).
  apply in_or_app. left. exact Hb.
Qed.

Lemma dump_hex_bytes (bytes : list Z) :
  renders_bytes L -> Forall is_byte bytes ->
  dump bytes = fold_right (fun b rest => hex_byte b ++ " " ++ rest) "" bytes.
Proof.
  intros HL HF. induction HF as [|b bytes Hb HF IH]; [reflexivity |].
  cbn [dump fold_right]. fold (dump bytes). rewrite (HL b Hb), IH.
  reflexivity.
Qed.

Lemma length_window_in (pos : Z) (file : list Z) (len : Z) :
  in_buffer pos file len ->
  List.length (window pos file len) = Z.to_nat len.
Proof.
  intros [Hpos Hlen]. unfold window.
  rewrite length_firstn, length_skipn. lia.
Qed.

End TruncationBounds.

(** C10: the loop of print leaves in [content] three characters for every
    raw byte of the window, so a content that is truncated has at least 42;
    the replace call is then within the string (index 27, count
    [length - 34], at least 8) and returns, std::out_of_range cannot
    occur; what it returns has length 39, and so has the 39-wide column
    that print puts into its row. *)
Theorem truncation_in_range {K : EventTypes} {L : LogApi}
        (pos : Z) (file : list Z) (len : Z) (e : Event) :
  renders_bytes L -> Forall is_byte file -> in_buffer pos file len ->
  exists content,
    hexdump (Z.to_nat len) 0 pos file "" e = Returns content e [] /\
    content = dump (window pos file len) /\
    content = fold_right (fun b rest => hex_byte b ++ " " ++ rest) ""
                         (window pos file len) /\
    strlen content = 3 * Z.of_nat (Z.to_nat len) /\
    (strlen content <= 39 ->
     exists rest,
       print pos file len e
       = Returns tt e
           [debug (offset_column pos ++ formatColumn content 39
                     ++ "| " ++ rest)]) /\
    (strlen content > 39 ->
     strlen content >= 42 /\
     27 <= strlen content /\
     size_sub (strlen content) 34 >= 8 /\
     exists column rest,
       string_replace content 27 (size_sub (strlen content) 34) "[...]" e
       = Returns column e [] /\
       strlen column = 39 /\
       strlen (formatColumn column 39) = 39 /\
       print pos file len e
       = Returns tt e
           [debug (offset_column pos ++ formatColumn column 39
                     ++ "| " ++ rest)]).
Proof.
  intros HL HF Hwin.
  pose proof (strlen_dump _ HL (window_bytes pos file len HF)) as Hlen.
  rewrite (length_window_in pos file len Hwin) in Hlen.
  destruct (row_of_columns pos (window pos file len) e) as (rest & Hrow).
  pose proof (print_run pos file len e Hwin) as Hprint.
  rewrite Hrow in Hprint.
  exists (dump (window pos file len)).
  split; [apply hexdump_window, Hwin |].
  split; [reflexivity |].
  split; [apply dump_hex_bytes; [exact HL | apply window_bytes, HF] |].
  split; [exact Hlen |].
  split.
  - intros Hshort. exists rest.
    rewrite elide_short in Hprint by exact Hshort. exact Hprint.
  - intros Hlong.
    assert (H42 : strlen (dump (window pos file len)) >= 42) by lia.
    split; [exact H42 |]. split; [lia |].
    rewrite size_sub_34 by lia. split; [lia |].
    exists (elide (dump (window pos file len))), rest.
    pose proof (truncate_run (dump (window pos file len)) e) as Hrun.
    unfold yields in Hrun.
    destruct (Z.gtb_spec (strlen (dump (window pos file len))) 39);
      [| lia].
    rewrite size_sub_34 in Hrun by lia.
    split; [exact Hrun |].
    split; [apply strlen_elide_long; lia |].
    split; [| exact Hprint].
    rewrite strlen_formatColumn, strlen_elide_long by lia. lia.
Qed.

Lemma truncation_in_range_witness :
  exists content,
    @hexdump spec_log 14 0 2 (repeat 0xAB 16) ""
             (mkEvent 0x51 true 0 0 500000 480 480)
    = Returns content (mkEvent 0x51 true 0 0 500000 480 480) [] /\
    strlen content = 42 /\
    exists column rest,
      string_replace content 27 (size_sub (strlen content) 34) "[...]"
                     (mkEvent 0x51 true 0 0 500000 480 480)
      = Returns column (mkEvent 0x51 true 0 0 500000 480 480) [] /\
      strlen column = 39 /\
      @print midi_types spec_log 2 (repeat 0xAB 16) 14
             (mkEvent 0x51 true 0 0 500000 480 480)
      = Returns tt (mkEvent 0x51 true 0 0 500000 480 480)
          [debug (@offset_column spec_log 2 ++ formatColumn column 39
                    ++ "| " ++ rest)].
Proof.
  destruct (@truncation_in_range midi_types spec_log 2 (repeat 0xAB 16) 14
              (mkEvent 0x51 true 0 0 500000 480 480) spec_log_renders)
    as (content & Hloop & _ & _ & Hlen & _ & Hlong).
  - repeat constructor; unfold is_byte; lia.
  - split; [lia | simpl; lia].
  - change (3 * Z.of_nat (Z.to_nat 14)) with 42 in Hlen.
    exists content. split; [exact Hloop |]. split; [exact Hlen |].
    destruct (Hlong ltac:(lia))
      as (_ & _ & _ & column & rest & Hrun & Hcol & _ & Hprint).
    exists column, rest.
    split; [exact Hrun |]. split; [exact Hcol | exact Hprint].
Defined.

(** ** A Note On row, end to end *)

Section NoteOnRow.
Context {K : EventTypes} {L : LogApi}.

Lemma window_between (before bytes after : list Z) (pos : Z) :
  0 <= pos -> List.length before = Z.to_nat pos ->
  window pos (before ++ bytes ++ after) (Z.of_nat (List.length bytes)) = bytes.
Proof.
  intros Hpos Hlen. unfold window.
  rewrite skipn_app, <- Hlen, skipn_all, Nat.sub_diag, skipn_0.
  rewrite Nat2Z.id. cbn [List.app].
  rewrite firstn_app, firstn_all, Nat.sub_diag, firstn_0.
  apply app_nil_r.
Qed.

Lemma note_on_row (t : Z) :
  labels_distinct -> NOTE_ON = 0x90 -> renders_bytes L ->
  row_of 0x10 [0x90; 0x3C; 0x64] (mkEvent 0x90 false 60 100 t 480 480)
  = offset_column 0x10 ++
    "90 3c 64                               | 480    | 480    | Note on                   | Channel 0  | Note C4  at velocity 100".
Proof.
  intros ND Hon HL.
  assert (Hname : yields getEventName (mkEvent 0x90 false 60 100 t 480 480)
                         "Note on").
  { apply (getEventName_case _ _ ND).
    - simpl. discriminate.
    - cbn [type]. rewrite <- Hon. simpl. auto. }
  unfold row_of, offset_column. rewrite Hname.
  cbn [dump fold_right type meta value_of].
  rewrite !HL by (unfold is_byte; lia).
  rewrite Hon, Z.eqb_refl. cbn [orb].
  rewrite (getNoteName_run (mkEvent 0x90 false 60 100 t 480 480)).
  cbn [value_of note velocity totalTime delta].
  rewrite app_assoc_s. do 2 apply f_equal.
  vm_compute. reflexivity.
Qed.

End NoteOnRow.

(** C8: for the event with type 0x90, meta false, note 60, velocity 100,
    totalTime 480 and delta 480, print at offset 0x10 over the raw bytes
    90 3C 64 hands the logger one row, and it contains "Note on",
    "Channel 0", "Note C4", "at velocity 100" and "90 3c 64". *)
Theorem print_note_on {K : EventTypes} {L : LogApi}
        (before after : list Z) (t : Z) :
  labels_distinct -> NOTE_ON = 0x90 -> renders_bytes L ->
  List.length before = 16%nat ->
  exists row,
    print 0x10 (before ++ [0x90; 0x3C; 0x64] ++ after) 3
          (mkEvent 0x90 false 60 100 t 480 480)
    = Returns tt (mkEvent 0x90 false 60 100 t 480 480) [debug row] /\
    contains "Note on" row /\
    contains "Channel 0" row /\
    contains "Note C4" row /\
    contains "at velocity 100" row /\
    contains "90 3c 64" row.
Proof.
  intros ND Hon HL Hlen.
  pose proof (window_between before [0x90; 0x3C; 0x64] after 0x10
                ltac:(lia) Hlen) as Hw.
  change (Z.of_nat (List.length [0x90; 0x3C; 0x64])) with 3 in Hw.
  exists (row_of 0x10 [0x90; 0x3C; 0x64] (mkEvent 0x90 false 60 100 t 480 480)).
  split.
  - rewrite print_run, Hw; [reflexivity |].
    split; [lia |]. rewrite length_app, Hlen. simpl. lia.
  - rewrite (note_on_row t ND Hon HL).
    split; [| split; [| split; [| split]]];
      apply contains_suffix, occurs_contains; reflexivity.
Qed.

Lemma print_note_on_witness :
  exists row,
    @print midi_types spec_log 0x10 (repeat 0 16 ++ [0x90; 0x3C; 0x64] ++ [])
           3 (mkEvent 0x90 false 60 100 0 480 480)
    = Returns tt (mkEvent 0x90 false 60 100 0 480 480) [debug row] /\
    contains "Note on" row /\
    contains "Channel 0" row /\
    contains "Note C4" row /\
    contains "at velocity 100" row /\
    contains "90 3c 64" row.
Proof.
  exact (@print_note_on midi_types spec_log (repeat 0 16) [] 0
           midi_types_distinct eq_refl spec_log_renders eq_refl).
Defined.

(** * Further properties of the member functions *)

(** ** Enumeration of bytes *)

Lemma all_bytes_complete (t : Z) : is_byte t -> In t all_bytes.
Proof.
  intros [Hlo Hhi]. unfold all_bytes.
  rewrite <- (Z2Nat.id t Hlo). apply in_map, in_seq. lia.
Qed.

Lemma byte_forall (P : Z -> bool) :
  forallb P all_bytes = true -> forall t, is_byte t -> P t = true.
Proof.
  intros H t Ht. rewrite forallb_forall in H.
  apply H, all_bytes_complete, Ht.
Qed.

Lemma land_F0_byte (t : Z) : is_byte (Z.land t 0xF0).
Proof.
  rewrite <- u8_land_F0. unfold u8, is_byte.
  apply Z.mod_pos_bound. lia.
Qed.

Lemma land_0F_range (t : Z) : 0 <= Z.land t 0x0F < 16.
Proof.
  change 0x0F with (Z.ones 4). rewrite Z.land_ones by lia.
  apply Z.mod_pos_bound. lia.
Qed.

Lemma nibbles_of_sum (k ch : Z) :
  Z.land k 0xF0 = k -> 0 <= ch < 16 ->
  Z.land (k + ch) 0xF0 = k /\ Z.land (k + ch) 0x0F = ch.
Proof.
  intros Hk Hch.
  pose proof (land_F0_byte k) as Hb. rewrite Hk in Hb.
  assert (Hc : is_byte ch) by (unfold is_byte; lia).
  pose proof (byte_forall
    (fun k => implb (Z.land k 0xF0 =? k)
      (forallb (fun ch => implb (ch <? 16)
         ((Z.land (k + ch) 0xF0 =? k) && (Z.land (k + ch) 0x0F =? ch)))
         all_bytes))
    ltac:(vm_compute; reflexivity) k Hb) as H.
  cbv beta in H. rewrite (proj2 (Z.eqb_eq _ _) Hk) in H. cbn [implb] in H.
  rewrite forallb_forall in H.
  specialize (H ch (all_bytes_complete ch Hc)).
  rewrite (proj2 (Z.ltb_lt ch 16) ltac:(lia)) in H. cbn [implb] in H.
  apply andb_true_iff in H. destruct H as [H1 H2].
  split; apply Z.eqb_eq; assumption.
Qed.

(** ** Channel and message kind *)

(** X1: for a type byte, the channel that getChannel returns lies in 0..15,
    the type that stripChannel leaves has a zero low nibble, and the two
    add up to the original type. *)
Theorem channel_split (e : Event) :
  is_byte (type e) ->
  exists c e',
    getChannel e = Returns c e [] /\
    stripChannel e = Returns tt e' [] /\
    0 <= c < 16 /\
    Z.land (type e') 0x0F = 0 /\
    type e' + c = type e.
Proof.
  intros Hb.
  exists (Z.land (type e) 0x0F). eexists.
  split; [apply getChannel_run |].
  split; [apply stripChannel_run |].
  split; [apply land_0F_range |].
  cbn [type]. split.
  - rewrite <- Z.land_assoc. apply Z.land_0_r.
  - apply Z.eqb_eq.
    exact (byte_forall
             (fun t => Z.land t 0xF0 + Z.land t 0x0F =? t)
             ltac:(vm_compute; reflexivity) (type e) Hb).
Qed.

Lemma channel_split_witness :
  exists c e',
    getChannel (mkEvent 0x9A false 60 100 0 0 0)
    = Returns c (mkEvent 0x9A false 60 100 0 0 0) [] /\
    stripChannel (mkEvent 0x9A false 60 100 0 0 0) = Returns tt e' [] /\
    0 <= c < 16 /\
    Z.land (type e') 0x0F = 0 /\
    type e' + c = 0x9A.
Proof.
  apply (channel_split (mkEvent 0x9A false 60 100 0 0 0)).
  unfold is_byte. simpl. lia.
Defined.

(** X2: stripChannel is idempotent: the event it leaves has a byte for a
    type and channel 0, and stripping it again changes nothing. *)
Theorem stripChannel_idempotent (e : Event) :
  exists e',
    stripChannel e = Returns tt e' [] /\
    stripChannel e' = Returns tt e' [] /\
    yields getChannel e' 0 /\
    is_byte (type e').
Proof.
  eexists. split; [apply stripChannel_run |].
  split; [| split].
  - rewrite stripChannel_run. cbn [type meta note velocity tempo totalTime delta].
    rewrite <- Z.land_assoc. reflexivity.
  - unfold yields. rewrite getChannel_run. cbn [type].
    rewrite <- Z.land_assoc. change (Z.land 0xF0 0x0F) with 0.
    rewrite Z.land_0_r. reflexivity.
  - cbn [type]. apply land_F0_byte.
Qed.

(** X3: a channel-voice status byte is a case label with a zero low nibble
    plus a channel; stripChannel followed by getEventName names the label,
    whatever the channel, and getChannel on the unstripped event returns
    the channel. *)
Theorem classify_after_strip {K : EventTypes}
        (e : Event) (k ch : Z) (name : string) :
  labels_distinct -> In (k, name) name_cases ->
  Z.land k 0xF0 = k -> k <> 0xF0 -> 0 <= ch < 16 ->
  type e = k + ch ->
  exists e',
    stripChannel e = Returns tt e' [] /\
    yields getEventName e' name /\
    yields getChannel e ch.
Proof.
  intros ND HIn Hk HF Hch Hty.
  destruct (nibbles_of_sum k ch Hk Hch) as [Hhi Hlo].
  eexists. split; [apply stripChannel_run |].
  split.
  - apply (getEventName_case _ _ ND); cbn [type]; rewrite Hty, Hhi.
    + rewrite Hk. exact HF.
    + exact HIn.
  - unfold yields. rewrite getChannel_run, Hty, Hlo. reflexivity.
Qed.

Lemma classify_after_strip_witness :
  exists e',
    stripChannel (mkEvent 0x93 false 60 100 0 0 0) = Returns tt e' [] /\
    yields (@getEventName midi_types) e' "Note on" /\
    yields getChannel (mkEvent 0x93 false 60 100 0 0 0) 3.
Proof.
  apply (@classify_after_strip midi_types
           (mkEvent 0x93 false 60 100 0 0 0) 0x90 3 "Note on"
           midi_types_distinct).
  - simpl. tauto.
  - reflexivity.
  - discriminate.
  - lia.
  - reflexivity.
Defined.

(** ** Lengths and names agree *)

Lemma switch_defined {A : Type} (k : Z) (cases : list (Z * A)) :
  In k (map fst cases) ->
  exists v, switch k cases = Some v /\ In v (map snd cases).
Proof.
  induction cases as [|[l b] rest IH]; simpl; intros HIn.
  - contradiction.
  - destruct (Z.eqb_spec k l) as [->|Hne].
    + exists b. split; [reflexivity | left; reflexivity].
    + destruct HIn as [Heq | HIn]; [congruence |].
      destruct (IH HIn) as (v & Hv & Hin).
      exists v. split; [exact Hv | right; exact Hin].
Qed.

Section LengthsAndNames.
Context {K : EventTypes}.

Lemma length_labels_named (k : Z) :
  In k (map fst length_cases) -> In k (map fst name_cases).
Proof.
  cbv [map fst length_cases name_cases]. cbn [In].
  intros H. repeat (destruct H as [H|H]; [tauto |]). contradiction.
Qed.

Lemma table_names_known (name : string) :
  In name (map snd name_cases) -> name <> "Unknown event type".
Proof.
  cbv [map snd name_cases]. cbn [In]. intros H.
  repeat (destruct H as [H|H]; [rewrite <- H; discriminate |]).
  contradiction.
Qed.

Lemma length_values (n : Z) :
  In n (map snd length_cases) -> 0 <= n <= 5.
Proof.
  cbv [map snd length_cases]. cbn [In]. intros H.
  repeat (destruct H as [H|H]; [lia |]). contradiction.
Qed.

End LengthsAndNames.

(** X4: getEventLength returns a value from -1 to 5, and whenever it is not
    the sentinel -1 the type also has a name: getEventName does not answer
    "Unknown event type". *)
Theorem getEventLength_range {K : EventTypes} (e : Event) :
  exists n name,
    yields getEventLength e n /\
    yields getEventName e name /\
    -1 <= n <= 5 /\
    (0 <= n -> name <> "Unknown event type").
Proof.
  pose proof (getEventLength_switch e) as Hlen.
  destruct (switch (type e) length_cases) as [n|] eqn:E.
  - apply switch_Some in E.
    pose proof (length_values n (in_map snd _ _ E)) as Hn.
    pose proof (length_labels_named _ (in_map fst _ _ E)) as Hnamed.
    cbn [fst snd] in Hn, Hnamed.
    destruct (switch_defined _ _ Hnamed) as (name & Hsw & Hin).
    destruct (Z.eq_dec (Z.land (type e) 0xF0) 0xF0) as [H|H].
    + exists n, "System message".
      split; [exact Hlen |]. split; [apply getEventName_system, H |].
      split; [lia | discriminate].
    + exists n, name.
      split; [exact Hlen |].
      split; [unfold yields; rewrite (getEventName_switch e H), Hsw;
              reflexivity |].
      split; [lia |].
      intros _. apply table_names_known, Hin.
  - destruct (getEventName_total e) as (name & Hname).
    exists (-1), name.
    split; [exact Hlen |]. split; [exact Hname |]. split; lia.
Qed.

(** ** Padding twice *)

Lemma spaces_app (a b : nat) : spaces a ++ spaces b = spaces (a + b).
Proof.
  induction a as [|a IH]; [reflexivity |].
  cbn [spaces Nat.add]. rewrite app_assoc_s, IH. reflexivity.
Qed.

(** X5: padding a padded text is padding once to the larger width; in
    particular formatColumn is idempotent at a fixed width. *)
Theorem formatColumn_twice (s : string) (w1 w2 : Z) :
  formatColumn (formatColumn s w1) w2 = formatColumn s (Z.max w1 w2) /\
  formatColumn (formatColumn s w1) w1 = formatColumn s w1.
Proof.
  assert (H : forall w v,
             formatColumn (formatColumn s w) v = formatColumn s (Z.max w v)).
  { intros w v.
    rewrite (formatColumn_spaces (formatColumn s w) v), strlen_formatColumn.
    rewrite !formatColumn_spaces, app_assoc_s, spaces_app.
    pose proof (strlen_nonneg s). do 2 f_equal. lia. }
  split; [apply H |]. rewrite H, Z.max_id. reflexivity.
Qed.

(** ** Note names *)

Lemma note_name_yields (e : Event) (name : string) :
  yields getNoteName e name <-> name = note_name (note e).
Proof.
  unfold note_name, yields.
  rewrite (getNoteName_run e), (getNoteName_run (mkEvent 0 false _ 0 0 0 0)).
  cbn [value_of note]. split.
  - intros H. inversion H. reflexivity.
  - intros ->. reflexivity.
Qed.

(** X6: on note bytes getNoteName is injective: two notes with the same
    name are the same note. *)
Theorem getNoteName_injective (e1 e2 : Event) (name : string) :
  is_byte (note e1) -> is_byte (note e2) ->
  yields getNoteName e1 name -> yields getNoteName e2 name ->
  note e1 = note e2.
Proof.
  intros H1 H2 N1 N2.
  apply note_name_yields in N1, N2.
  pose proof (byte_forall
    (fun a => forallb (fun b =>
       implb (String.eqb (note_name a) (note_name b)) (a =? b)) all_bytes)
    ltac:(vm_compute; reflexivity) (note e1) H1) as H.
  cbv beta in H. rewrite forallb_forall in H.
  specialize (H (note e2) (all_bytes_complete _ H2)).
  rewrite <- N1, <- N2, String.eqb_refl in H. cbn [implb] in H.
  apply Z.eqb_eq, H.
Qed.

Lemma getNoteName_injective_witness :
  note (mkEvent 0x90 false 61 100 0 0 0) = note (mkEvent 0x80 false 61 0 0 7 7).
Proof.
  apply (getNoteName_injective (mkEvent 0x90 false 61 100 0 0 0)
                               (mkEvent 0x80 false 61 0 0 7 7) "C#4").
  - unfold is_byte. simpl. lia.
  - unfold is_byte. simpl. lia.
  - reflexivity.
  - reflexivity.
Defined.

(** X7: the name of a note byte has two to four characters, so "Note "
    and the name fill the 9-wide column of the row exactly: with a name
    of four characters no space is left before "at velocity". *)
Theorem getNoteName_width (e : Event) :
  is_byte (note e) ->
  exists name,
    yields getNoteName e name /\
    2 <= strlen name <= 4 /\
    strlen (formatColumn ("Note " ++ name) 9) = 9 /\
    (strlen name = 4 -> formatColumn ("Note " ++ name) 9 = "Note " ++ name).
Proof.
  intros Hb. exists (note_name (note e)).
  split; [apply note_name_yields; reflexivity |].
  assert (Hlen : 2 <= strlen (note_name (note e)) <= 4).
  { pose proof (byte_forall
      (fun n => (2 <=? strlen (note_name n)) && (strlen (note_name n) <=? 4))
      ltac:(vm_compute; reflexivity) (note e) Hb) as H.
    cbv beta in H. apply andb_true_iff in H. lia. }
  split; [exact Hlen |].
  split.
  - rewrite strlen_formatColumn, strlen_app. change (strlen "Note ") with 5.
    lia.
  - intros H4. apply formatColumn_fits. rewrite strlen_app.
    change (strlen "Note ") with 5. lia.
Qed.

Lemma getNoteName_width_witness :
  exists name,
    yields getNoteName (mkEvent 0x90 false 1 100 0 0 0) name /\
    2 <= strlen name <= 4 /\
    strlen (formatColumn ("Note " ++ name) 9) = 9 /\
    (strlen name = 4 -> formatColumn ("Note " ++ name) 9 = "Note " ++ name).
Proof.
  apply (getNoteName_width (mkEvent 0x90 false 1 100 0 0 0)).
  unfold is_byte. simpl. lia.
Defined.

(** ** What print reads *)

Section PrintReads.
Context {K : EventTypes} {L : LogApi}.

Lemma hexdump_faults (n : nat) :
  forall (i pos : Z) (file : list Z) (content : string) (e : Event),
    (0 < n)%nat ->
    ~ (0 <= pos + i /\ (Z.to_nat (pos + i) + n <= List.length file)%nat) ->
    hexdump n i pos file content e = Fault.
Proof.
  induction n as [|n IH]; intros i pos file content e Hn Hout; [lia |].
  cbn [hexdump]. unfold bind at 1. unfold read, ret, fault.
  destruct (Z.ltb_spec (pos + i) 0) as [Hneg|Hpos]; [reflexivity |].
  destruct (nth_error file (Z.to_nat (pos + i))) as [b|] eqn:Hb;
    [| reflexivity].
  cbv beta iota.
  assert (Hlt : (Z.to_nat (pos + i) < List.length file)%nat)
    by (apply nth_error_Some; congruence).
  rewrite IH; [reflexivity | lia |].
  replace (pos + (i + 1)) with (pos + i + 1) by lia.
  intros [_ Hin]. apply Hout. split; [exact Hpos | lia].
Qed.

Lemma hexdump_readable (pos : Z) (file : list Z) (len : Z) (e : Event) :
  readable pos file len ->
  yields (hexdump (Z.to_nat len) 0 pos file "") e
         (dump (window pos file len)).
Proof.
  intros [H0 | Hwin]; [| apply hexdump_window, Hwin].
  unfold window. rewrite H0. reflexivity.
Qed.

Lemma readable_dec (pos : Z) (file : list Z) (len : Z) :
  readable pos file len \/ ~ readable pos file len.
Proof.
  unfold readable, in_buffer.
  destruct (Nat.eq_dec (Z.to_nat len) 0) as [H0|H0]; [left; left; exact H0 |].
  destruct (Z_le_dec 0 pos) as [Hp|Hp]; [| right; intros [?|[? ?]]; lia].
  destruct (le_dec (Z.to_nat pos + Z.to_nat len) (List.length file))
    as [Hl|Hl]; [left; right; split; assumption |].
  right. intros [?|[? ?]]; lia.
Qed.

Lemma print_readable (pos : Z) (file : list Z) (len : Z) (e : Event) :
  readable pos file len ->
  print pos file len e
  = Returns tt e [debug (row_of pos (window pos file len) e)].
Proof.
  intros Hread.
  destruct (getEventName_total e) as (name & Hname).
  pose proof (yields_value _ _ _ "" Hname) as Ename.
  pose proof (getNoteName_run e) as Hnote.
  pose proof (yields_value _ _ _ "" Hnote) as Enote.
  pose proof (hexdump_readable pos file len e Hread) as Hdump.
  pose proof (truncate_run (dump (window pos file len)) e) as Htrunc.
  pose proof (getChannel_run e) as Hchan.
  unfold yields in *.
  unfold print, bind, row_of.
  rewrite Hdump. cbv beta iota. rewrite Htrunc.
  unfold field, ret, Log_debug. cbv beta iota.
  rewrite <- Ename, <- Enote. rewrite Hname.
  destruct (meta e); cbv beta iota; [| rewrite Hchan; cbv beta iota];
    (destruct ((type e =? NOTE_ON) || (type e =? NOTE_OFF));
     cbv beta iota;
     [ rewrite Hnote | destruct (type e =? TEMPO) ];
     cbv beta iota; cbn [List.app];
     rewrite ?app_assoc_s, ?app_nil_s; reflexivity).
Qed.

Lemma print_unreadable (pos : Z) (file : list Z) (len : Z) (e : Event) :
  ~ readable pos file len -> print pos file len e = Fault.
Proof.
  intros Hout.
  assert (H : hexdump (Z.to_nat len) 0 pos file "" e = Fault).
  { apply hexdump_faults.
    - destruct (Z.to_nat len) eqn:E; [| lia].
      exfalso. apply Hout. left. exact E.
    - rewrite Z.add_0_r. intros [Hp Hl]. apply Hout. right.
      split; assumption. }
  unfold print, bind. rewrite H. reflexivity.
Qed.

Lemma row_of_parts (pos : Z) (bytes : list Z) (e : Event) :
  row_of pos bytes e
  = row_head pos bytes e ++ " | " ++ channel_column e ++ " | "
      ++ trailing_field e.
Proof.
  unfold row_of, row_head, channel_column, trailing_field.
  rewrite !app_assoc_s. reflexivity.
Qed.

End PrintReads.

(** X8: print reads exactly the window.  When the window lies in the
    buffer, or there is nothing to read, print returns, leaves the event
    as it was and makes one debug call; otherwise a read falls outside the
    buffer.  It never throws. *)
Theorem print_reads_window {K : EventTypes} {L : LogApi}
        (pos : Z) (file : list Z) (len : Z) (e : Event) :
  (readable pos file len ->
   exists row, print pos file len e = Returns tt e [debug row]) /\
  (~ readable pos file len -> print pos file len e = Fault) /\
  (forall x, print pos file len e <> Throws x).
Proof.
  split; [| split].
  - intros H. eexists. apply print_readable, H.
  - apply print_unreadable.
  - intros x. destruct (readable_dec pos file len) as [H|H].
    + rewrite (print_readable _ _ _ _ H). discriminate.
    + rewrite (print_unreadable _ _ _ _ H). discriminate.
Qed.

Lemma print_reads_window_witness :
  (exists row,
     @print midi_types spec_log 5 [] 0 (mkEvent 0x2F true 0 0 0 9 9)
     = Returns tt (mkEvent 0x2F true 0 0 0 9 9) [debug row]) /\
  @print midi_types spec_log 1 [0x90; 0x3C; 0x64] 3
         (mkEvent 0x90 false 60 100 0 0 0) = Fault.
Proof.
  split.
  - apply (@print_reads_window midi_types spec_log 5 [] 0
             (mkEvent 0x2F true 0 0 0 9 9)).
    left. reflexivity.
  - apply (@print_reads_window midi_types spec_log 1 [0x90; 0x3C; 0x64] 3
             (mkEvent 0x90 false 60 100 0 0 0)).
    intros [H | [_ H]]; [discriminate H | simpl in H; lia].
Defined.

(** X9: the row depends on the buffer through the window only: two
    buffers that hold the same bytes in the window give the same outcome. *)
Theorem print_window_only {K : EventTypes} {L : LogApi}
        (pos : Z) (file1 file2 : list Z) (len : Z) (e : Event) :
  readable pos file1 len -> readable pos file2 len ->
  window pos file1 len = window pos file2 len ->
  print pos file1 len e = print pos file2 len e.
Proof.
  intros H1 H2 Hw.
  rewrite (print_readable _ _ _ _ H1), (print_readable _ _ _ _ H2), Hw.
  reflexivity.
Qed.

Lemma print_window_only_witness :
  @print midi_types spec_log 1 [0x00; 0x90; 0x3C; 0x64] 3
         (mkEvent 0x90 false 60 100 0 0 0)
  = @print midi_types spec_log 1 [0xFF; 0x90; 0x3C; 0x64; 0x80] 3
           (mkEvent 0x90 false 60 100 0 0 0).
Proof.
  apply (@print_window_only midi_types spec_log).
  - right. split; [lia | simpl; lia].
  - right. split; [lia | simpl; lia].
  - reflexivity.
Defined.

(** ** Widths of the columns *)

Section ColumnWidths.
Context {K : EventTypes} {L : LogApi}.

Lemma strlen_dump_column (content : string) :
  strlen (formatColumn (elide content) 39) = 39.
Proof.
  rewrite strlen_formatColumn.
  destruct (Z_gt_dec (strlen content) 39) as [Hlong|Hshort].
  - rewrite strlen_elide_long by exact Hlong. reflexivity.
  - rewrite elide_short by lia. lia.
Qed.

Lemma strlen_channel_column (e : Event) : strlen (channel_column e) = 10.
Proof.
  unfold channel_column. destruct (meta e); [reflexivity |].
  rewrite strlen_formatColumn, strlen_app. change (strlen "Channel ") with 8.
  pose proof (land_0F_range (type e)) as Hc.
  assert (Hd : 1 <= strlen (to_string (Z.land (type e) 0x0F)) <= 2).
  { remember (Z.land (type e) 0x0F) as c eqn:Ec. clear Ec.
    assert (Hb : is_byte c) by (unfold is_byte; lia).
    pose proof (byte_forall
      (fun c => implb (c <? 16)
         ((1 <=? strlen (to_string c)) && (strlen (to_string c) <=? 2)))
      ltac:(vm_compute; reflexivity) c Hb) as H.
    cbv beta in H. rewrite (proj2 (Z.ltb_lt c 16) ltac:(lia)) in H.
    cbn [implb] in H. apply andb_true_iff in H. lia. }
  lia.
Qed.

Lemma name_fits (e : Event) (name : string) :
  yields getEventName e name ->
  strlen name <= 30 /\ (type e <> MIDI_CHANNEL_PREFIX -> strlen name <= 25).
Proof.
  intros Hname.
  destruct (Z.eq_dec (Z.land (type e) 0xF0) 0xF0) as [H|H].
  - pose proof (getEventName_system e H) as Hs. unfold yields in *.
    rewrite Hs in Hname. injection Hname as <-.
    split; [| intros _]; vm_compute; intros Hc; discriminate Hc.
  - pose proof (getEventName_switch e H) as Hs. unfold yields in *.
    rewrite Hs in Hname. clear Hs.
    destruct (switch (type e) name_cases) as [v|] eqn:E;
      injection Hname as <-;
      [| split; [| intros _]; vm_compute; intros Hc; discriminate Hc].
    apply switch_Some in E. unfold name_cases in E. cbn [In] in E.
    repeat (destruct E as [E|E];
            [ injection E as Ety <-;
              first [ split; [| intros _]; vm_compute;
                      intros Hc; discriminate Hc
                    | split; [vm_compute; intros Hc; discriminate Hc |
                              intros Hne; exfalso; apply Hne;
                              symmetry; exact Ety] ]
            | ]).
    contradiction.
Qed.

End ColumnWidths.

(** X10: the hex dump column of a row is exactly 39 characters wide, for
    every window and every formatter: a short dump is padded, a long one
    is cut down to 39. *)
Theorem dump_column_width {K : EventTypes} {L : LogApi}
        (pos : Z) (file : list Z) (len : Z) (e : Event) :
  readable pos file len ->
  exists column rest,
    print pos file len e
    = Returns tt e
        [debug (offset_column pos ++ formatColumn column 39 ++ "| " ++ rest)]
    /\ strlen (formatColumn column 39) = 39.
Proof.
  intros Hread.
  destruct (row_of_columns pos (window pos file len) e) as (rest & Hrow).
  exists (elide (dump (window pos file len))), rest.
  split.
  - rewrite (print_readable _ _ _ _ Hread), Hrow. reflexivity.
  - apply strlen_dump_column.
Qed.

Lemma dump_column_width_witness :
  exists column rest,
    @print midi_types spec_log 0 (repeat 0x7F 40) 40
           (mkEvent 0x01 true 0 0 0 5 5)
    = Returns tt (mkEvent 0x01 true 0 0 0 5 5)
        [debug (@offset_column spec_log 0 ++ formatColumn column 39
                  ++ "| " ++ rest)]
    /\ strlen (formatColumn column 39) = 39.
Proof.
  apply (@dump_column_width midi_types spec_log 0 (repeat 0x7F 40) 40
           (mkEvent 0x01 true 0 0 0 5 5)).
  right. split; [lia | simpl; lia].
Defined.

(** X11: every name getEventName returns has at most 30 characters, and
    at most 25, the width of the name column, unless the type is
    MIDI_CHANNEL_PREFIX.  That type is named "MIDI channel prefix
    assignment", 30 characters, which formatColumn leaves as it is: the
    one name that overflows the column, by 5. *)
Theorem getEventName_width {K : EventTypes} (e : Event) :
  exists name,
    yields getEventName e name /\
    strlen name <= 30 /\
    (type e <> MIDI_CHANNEL_PREFIX ->
     strlen name <= 25 /\ strlen (formatColumn name 25) = 25) /\
    (labels_distinct -> Z.land (type e) 0xF0 <> 0xF0 ->
     type e = MIDI_CHANNEL_PREFIX ->
     name = "MIDI channel prefix assignment" /\
     strlen name = 30 /\
     formatColumn name 25 = name /\
     strlen (formatColumn name 25) = 30).
Proof.
  destruct (getEventName_total e) as (name & Hname).
  destruct (name_fits e name Hname) as [H30 H25].
  exists name. split; [exact Hname |]. split; [exact H30 |].
  split.
  - intros Hne. specialize (H25 Hne). split; [exact H25 |].
    rewrite strlen_formatColumn. lia.
  - intros ND Hhigh Hty.
    assert (Hcase : yields getEventName e "MIDI channel prefix assignment").
    { apply (getEventName_case _ _ ND Hhigh). rewrite Hty. simpl. tauto. }
    unfold yields in Hname, Hcase. rewrite Hcase in Hname.
    injection Hname as <-.
    split; [reflexivity |]. split; [reflexivity |].
    split; [apply formatColumn_fits; vm_compute; intros Hc; discriminate Hc |].
    rewrite strlen_formatColumn. reflexivity.
Qed.

Lemma getEventName_width_witness :
  exists name,
    yields (@getEventName midi_types) (mkEvent 0x20 true 0 0 0 0 0) name /\
    name = "MIDI channel prefix assignment" /\
    strlen (formatColumn name 25) = 30.
Proof.
  destruct (@getEventName_width midi_types (mkEvent 0x20 true 0 0 0 0 0))
    as (name & Hname & _ & _ & Hprefix).
  exists name. split; [exact Hname |].
  destruct (Hprefix midi_types_distinct ltac:(simpl; discriminate) eq_refl)
    as (Heq & _ & _ & Hwide).
  split; [exact Heq | exact Hwide].
Defined.

(** X12: where the trailing field starts.  When the offset and the two
    times take at most 6 characters each and the type is not
    MIDI_CHANNEL_PREFIX, the row is 109 characters of columns followed by
    the trailing field. *)
Theorem row_alignment {K : EventTypes} {L : LogApi}
        (pos : Z) (file : list Z) (len : Z) (e : Event) :
  readable pos file len ->
  strlen (to_hex_string (u32 pos) None) <= 6 ->
  strlen (to_string (totalTime e)) <= 6 ->
  strlen (to_string (delta e)) <= 6 ->
  type e <> MIDI_CHANNEL_PREFIX ->
  exists columns,
    print pos file len e
    = Returns tt e [debug (columns ++ trailing_field e)] /\
    strlen columns = 109.
Proof.
  intros Hread Hpos Htotal Hdelta Hne.
  exists (row_head pos (window pos file len) e ++ " | "
            ++ channel_column e ++ " | ").
  split.
  - rewrite (print_readable _ _ _ _ Hread), row_of_parts.
    rewrite !app_assoc_s. reflexivity.
  - destruct (getEventName_total e) as (name & Hname).
    destruct (name_fits e name Hname) as [_ H25]. specialize (H25 Hne).
    unfold row_head. rewrite <- (yields_value _ _ _ "" Hname).
    rewrite !strlen_app, strlen_channel_column, strlen_dump_column.
    rewrite !strlen_formatColumn.
    change (strlen " | ") with 3. change (strlen "| ") with 2. lia.
Qed.

Lemma row_alignment_witness :
  exists columns,
    @print midi_types short_log 0x10 (repeat 0 16 ++ [0x90; 0x3C; 0x64]) 3
           (mkEvent 0x90 false 60 100 0 480 480)
    = Returns tt (mkEvent 0x90 false 60 100 0 480 480)
        [debug (columns
                  ++ @trailing_field midi_types
                       (mkEvent 0x90 false 60 100 0 480 480))] /\
    strlen columns = 109.
Proof.
  apply (@row_alignment midi_types short_log 0x10
           (repeat 0 16 ++ [0x90; 0x3C; 0x64]) 3
           (mkEvent 0x90 false 60 100 0 480 480)).
  - right. split; [lia | simpl; lia].
  - vm_compute. intros Hc. discriminate Hc.
  - vm_compute. intros Hc. discriminate Hc.
  - vm_compute. intros Hc. discriminate Hc.
  - simpl. discriminate.
Defined.

(** ** What a truncated dump shows *)

Section TruncatedDump.
Context {K : EventTypes} {L : LogApi}.

Lemma dump_app (a b : list Z) : dump (a ++ b) = dump a ++ dump b.
Proof.
  induction a as [|x a IH]; [reflexivity |].
  cbn [List.app dump fold_right]. fold (dump (a ++ b)). fold (dump a).
  rewrite IH, !app_assoc_s. reflexivity.
Qed.

Lemma dump_ends_space (bytes : list Z) :
  bytes <> [] -> exists body, dump bytes = body ++ " ".
Proof.
  induction bytes as [|b rest IH]; intros Hne; [congruence |].
  cbn [dump fold_right]. fold (dump rest).
  destruct rest as [|c rest].
  - exists (to_hex_string b (Some false)). reflexivity.
  - destruct (IH ltac:(discriminate)) as (body & Hbody).
    exists (to_hex_string b (Some false) ++ " " ++ body).
    rewrite Hbody, !app_assoc_s. reflexivity.
Qed.

Lemma take_app_length (a b : string) : take (String.length a) (a ++ b) = a.
Proof. induction a as [|x a IH]; simpl; [destruct b | rewrite IH]; reflexivity. Qed.

Lemma drop_app_length (a b : string) : drop (String.length a) (a ++ b) = b.
Proof. induction a as [|x a IH]; simpl; [destruct b; reflexivity | exact IH]. Qed.

Lemma elide_dump (bytes : list Z) :
  renders_bytes L -> Forall is_byte bytes ->
  (14 <= List.length bytes)%nat ->
  elide (dump bytes)
  = dump (firstn 9 bytes) ++ "[...] "
      ++ dump (skipn (List.length bytes - 2) bytes).
Proof.
  intros HL HF Hn.
  pose proof (strlen_dump bytes HL HF) as Hlen.
  rewrite elide_long by lia.
  (* the head: the first nine bytes *)
  assert (Hhead : take 27 (dump bytes) = dump (firstn 9 bytes)).
  { rewrite <- (firstn_skipn 9 bytes) at 1. rewrite dump_app.
    assert (H9 : Forall is_byte (firstn 9 bytes)).
    { rewrite Forall_forall in *. intros x Hx. apply HF.
      rewrite <- (firstn_skipn 9 bytes). apply in_or_app. left. exact Hx. }
    pose proof (strlen_dump _ HL H9) as E. rewrite length_firstn in E.
    replace 27%nat with (String.length (dump (firstn 9 bytes)))
      by (unfold strlen in E; lia).
    apply take_app_length. }
  (* the tail: a space and the last two bytes *)
  assert (Htail : drop (27 + Z.to_nat (strlen (dump bytes) - 34)) (dump bytes)
                  = " " ++ dump (skipn (List.length bytes - 2) bytes)).
  { set (m := (List.length bytes - 2)%nat).
    assert (Hm : Forall is_byte (firstn m bytes)).
    { rewrite Forall_forall in *. intros x Hx. apply HF.
      rewrite <- (firstn_skipn m bytes). apply in_or_app. left. exact Hx. }
    pose proof (strlen_dump _ HL Hm) as E. rewrite length_firstn in E.
    destruct (dump_ends_space (firstn m bytes)) as (body & Hbody).
    { intros Hnil. apply (f_equal (@List.length Z)) in Hnil.
      rewrite length_firstn in Hnil. simpl in Hnil. lia. }
    rewrite <- (firstn_skipn m bytes) at 2. rewrite dump_app, Hbody.
    rewrite Hbody, strlen_app in E. change (strlen " ") with 1 in E.
    rewrite app_assoc_s.
    replace (27 + Z.to_nat (strlen (dump bytes) - 34))%nat
      with (String.length body) by (unfold strlen in *; lia).
    apply drop_app_length. }
  rewrite Hhead, Htail. reflexivity.
Qed.

Lemma length_window (pos : Z) (file : list Z) (len : Z) :
  in_buffer pos file len ->
  List.length (window pos file len) = Z.to_nat len.
Proof.
  intros [Hpos Hlen]. unfold window.
  rewrite length_firstn, length_skipn. lia.
Qed.

End TruncatedDump.

(** X13: over a window of 14 bytes or more the dump column shows the first
    nine bytes, the marker, and the last two bytes, whatever lies between
    them. *)
Theorem elision_keeps_ends {K : EventTypes} {L : LogApi}
        (pos : Z) (file : list Z) (len : Z) (e : Event) :
  renders_bytes L -> Forall is_byte file -> in_buffer pos file len ->
  14 <= len ->
  exists rest,
    print pos file len e
    = Returns tt e
        [debug (offset_column pos
                  ++ (dump (firstn 9 (window pos file len)) ++ "[...] "
                        ++ dump (skipn (Z.to_nat len - 2)
                                       (window pos file len)))
                  ++ "| " ++ rest)].
Proof.
  intros HL HF Hwin Hlen.
  destruct (row_of_columns pos (window pos file len) e) as (rest & Hrow).
  exists rest.
  rewrite (print_run pos file len e Hwin), Hrow.
  pose proof (length_window pos file len Hwin) as Hw.
  rewrite formatColumn_fits
    by (rewrite strlen_elide_long;
        [lia | rewrite (strlen_dump _ HL (window_bytes pos file len HF)); lia]).
  rewrite (elide_dump _ HL (window_bytes pos file len HF)) by lia.
  rewrite Hw. reflexivity.
Qed.

Lemma elision_keeps_ends_witness :
  exists rest,
    @print midi_types spec_log 1
           [0; 1; 2; 3; 4; 5; 6; 7; 8; 9; 10; 11; 12; 13; 14; 15; 16] 15
           (mkEvent 0x7F true 0 0 0 0 0)
    = Returns tt (mkEvent 0x7F true 0 0 0 0 0)
        [debug (@offset_column spec_log 1
                  ++ "01 02 03 04 05 06 07 08 09 [...] 0e 0f "
                  ++ "| " ++ rest)].
Proof.
  apply (@elision_keeps_ends midi_types spec_log 1
           [0; 1; 2; 3; 4; 5; 6; 7; 8; 9; 10; 11; 12; 13; 14; 15; 16] 15
           (mkEvent 0x7F true 0 0 0 0 0) spec_log_renders).
  - repeat constructor; unfold is_byte; lia.
  - split; [lia | simpl; lia].
  - lia.
Defined.

(** X14: with nothing to read, a length of zero or below, print reads no
    byte, whatever the buffer and the offset, and the dump column of its
    row is blank. *)
Theorem print_nothing_to_read {K : EventTypes} {L : LogApi}
        (pos : Z) (file : list Z) (len : Z) (e : Event) :
  len <= 0 ->
  exists rest,
    print pos file len e
    = Returns tt e [debug (offset_column pos ++ spaces 39 ++ "| " ++ rest)].
Proof.
  intros Hlen.
  assert (H0 : Z.to_nat len = 0%nat) by lia.
  destruct (row_of_columns pos (window pos file len) e) as (rest & Hrow).
  exists rest.
  rewrite (print_readable pos file len e (or_introl H0)), Hrow.
  unfold window. rewrite H0. cbn [firstn dump fold_right].
  rewrite formatColumn_spaces. reflexivity.
Qed.

Lemma print_nothing_to_read_witness :
  exists rest,
    @print midi_types spec_log 1000 [] (-5) (mkEvent 0x2F true 0 0 0 0 0)
    = Returns tt (mkEvent 0x2F true 0 0 0 0 0)
        [debug (@offset_column spec_log 1000 ++ spaces 39 ++ "| " ++ rest)].
Proof.
  apply (@print_nothing_to_read midi_types spec_log 1000 []).
  lia.
Defined.

(** ** The channel column and the trailing field *)

Section RowEnd.
Context {K : EventTypes} {L : LogApi}.

Lemma row_ends_with (pos : Z) (bytes : list Z) (e : Event) (tail : string) :
  ends_with tail (channel_column e ++ " | " ++ trailing_field e) ->
  ends_with tail (row_of pos bytes e).
Proof.
  intros (pre & Hpre). exists (row_head pos bytes e ++ " | " ++ pre).
  rewrite row_of_parts, Hpre, !app_assoc_s. reflexivity.
Qed.

Lemma trailing_note (e : Event) :
  type e = NOTE_ON \/ type e = NOTE_OFF ->
  trailing_field e
  = formatColumn ("Note " ++ note_name (note e)) 9
      ++ "at velocity " ++ to_string (velocity e).
Proof.
  intros H. unfold trailing_field.
  replace ((type e =? NOTE_ON) || (type e =? NOTE_OFF)) with true.
  - rewrite <- (yields_value _ _ _ ""
                  (proj2 (note_name_yields e _) eq_refl)).
    reflexivity.
  - symmetry. apply orb_true_iff.
    destruct H as [H|H]; [left | right]; apply Z.eqb_eq, H.
Qed.

Lemma trailing_tempo (e : Event) :
  labels_distinct -> type e = TEMPO ->
  trailing_field e
  = formatColumn (to_string (tempo e)) 6 ++ " us per quarter note".
Proof.
  intros ND H. unfold trailing_field. rewrite H.
  assert (H1 : TEMPO <> NOTE_ON) by by_distinct ND.
  assert (H2 : TEMPO <> NOTE_OFF) by by_distinct ND.
  apply Z.eqb_neq in H1, H2. rewrite H1, H2, Z.eqb_refl. reflexivity.
Qed.

Lemma trailing_empty (e : Event) :
  type e <> NOTE_ON -> type e <> NOTE_OFF -> type e <> TEMPO ->
  trailing_field e = "".
Proof.
  intros H1 H2 H3. unfold trailing_field.
  apply Z.eqb_neq in H1, H2, H3. rewrite H1, H2, H3. reflexivity.
Qed.

End RowEnd.

(** X15: how a row ends.  For a Note On or Note Off it ends with the note
    column and "at velocity" with the velocity; for a Tempo event with the
    tempo and " us per quarter note"; for every other type with the
    separator after the channel column, the trailing field being empty.
    The comparison is on the type as it is: a status byte that still
    carries a channel is none of the three. *)
Theorem print_trailing_field {K : EventTypes} {L : LogApi}
        (pos : Z) (file : list Z) (len : Z) (e : Event) :
  labels_distinct -> readable pos file len ->
  exists row,
    print pos file len e = Returns tt e [debug row] /\
    (type e = NOTE_ON \/ type e = NOTE_OFF ->
     exists name,
       yields getNoteName e name /\
       ends_with (" | " ++ formatColumn ("Note " ++ name) 9
                    ++ "at velocity " ++ to_string (velocity e)) row) /\
    (type e = TEMPO ->
     ends_with (" | " ++ formatColumn (to_string (tempo e)) 6
                  ++ " us per quarter note") row) /\
    (type e <> NOTE_ON -> type e <> NOTE_OFF -> type e <> TEMPO ->
     ends_with (channel_column e ++ " | ") row).
Proof.
  intros ND Hread.
  exists (row_of pos (window pos file len) e).
  split; [apply print_readable, Hread |].
  split; [| split].
  - intros H. exists (note_name (note e)).
    split; [apply note_name_yields; reflexivity |].
    apply row_ends_with. exists (channel_column e).
    rewrite (trailing_note e H). reflexivity.
  - intros H. apply row_ends_with. exists (channel_column e).
    rewrite (trailing_tempo e ND H). reflexivity.
  - intros H1 H2 H3. apply row_ends_with. exists "".
    rewrite (trailing_empty e H1 H2 H3). reflexivity.
Qed.

Lemma print_trailing_field_witness :
  exists row,
    @print midi_types spec_log 0 [0x51; 0x03; 0x07; 0xA1; 0x20] 5
           (mkEvent 0x51 true 0 0 500000 96 96)
    = Returns tt (mkEvent 0x51 true 0 0 500000 96 96) [debug row] /\
    ends_with " | 500000 us per quarter note" row.
Proof.
  destruct (@print_trailing_field midi_types spec_log 0
              [0x51; 0x03; 0x07; 0xA1; 0x20] 5
              (mkEvent 0x51 true 0 0 500000 96 96) midi_types_distinct)
    as (row & Hprint & _ & Htempo & _).
  - right. split; [lia | simpl; lia].
  - exists row. split; [exact Hprint |].
    destruct (Htempo eq_refl) as (pre & Hpre). exists pre.
    rewrite Hpre. do 2 f_equal.
Defined.

(** X16: the channel column is 10 characters wide for every event; for an
    event that is not a meta-event it names the low nibble of the type, so
    that after stripChannel every row says "Channel 0". *)
Theorem print_channel_column {K : EventTypes} {L : LogApi}
        (pos : Z) (file : list Z) (len : Z) (e : Event) :
  readable pos file len ->
  exists head column trailing,
    print pos file len e
    = Returns tt e [debug (head ++ " | " ++ column ++ " | " ++ trailing)] /\
    strlen column = 10 /\
    (meta e = true -> column = spaces 10) /\
    (meta e = false ->
     column
     = formatColumn ("Channel " ++ to_string (Z.land (type e) 0x0F)) 10) /\
    (meta e = false ->
     exists e' head' trailing',
       stripChannel e = Returns tt e' [] /\
       print pos file len e'
       = Returns tt e'
           [debug (head' ++ " | " ++ "Channel 0 " ++ " | " ++ trailing')]).
Proof.
  intros Hread.
  exists (row_head pos (window pos file len) e), (channel_column e),
         (trailing_field e).
  split; [rewrite (print_readable _ _ _ _ Hread), row_of_parts;
          reflexivity |].
  split; [apply strlen_channel_column |].
  split; [| split]; intros Hmeta.
  - unfold channel_column. rewrite Hmeta. reflexivity.
  - unfold channel_column. rewrite Hmeta. reflexivity.
  - eexists. eexists. eexists.
    split; [apply stripChannel_run |].
    rewrite (print_readable _ _ _ _ Hread), row_of_parts.
    unfold channel_column at 1. cbn [meta type]. rewrite Hmeta.
    rewrite <- Z.land_assoc. change (Z.land 0xF0 0x0F) with 0.
    rewrite Z.land_0_r, formatColumn_spaces. reflexivity.
Qed.

Lemma print_channel_column_witness :
  exists head column trailing,
    @print midi_types spec_log 0 [0x9B; 0x3C; 0x64] 3
           (mkEvent 0x9B false 60 100 0 0 0)
    = Returns tt (mkEvent 0x9B false 60 100 0 0 0)
        [debug (head ++ " | " ++ column ++ " | " ++ trailing)] /\
    column = "Channel 11".
Proof.
  destruct (@print_channel_column midi_types spec_log 0 [0x9B; 0x3C; 0x64] 3
              (mkEvent 0x9B false 60 100 0 0 0))
    as (head & column & trailing & Hprint & _ & _ & Hcol & _).
  - right. split; [lia | simpl; lia].
  - exists head, column, trailing. split; [exact Hprint |].
    rewrite (Hcol eq_refl), formatColumn_spaces. reflexivity.
Defined.
